(** * Leveler administration, pagination view and number formatting

    A shallow embedding of
      - leveler/commands/lvladmin/users.py  (xpban, resetranks, setlevel),
      - leveler/menus/base.py               (the buttons and BaseView),
      - leveler/def_imgen_utils.py          (_auto_color, _humanize_number,
                                             char_in_font),
    with the properties of the ledger proved over it. *)

From Stdlib Require Import ZArith Ascii String DecimalString DecimalZ.
From Stdlib Require HexadecimalString.
From stdpp Require Import gmap strings list fin_maps sorting.

#[local] Set Warnings "-register-all".
#[local] Open Scope Z_scope.

(** ** Python values and exceptions *)

Module Py.

(** What a document of the [users] collection is made of: integers, strings,
    the null value and nested documents keyed by strings. *)
Inductive value : Type :=
| VNone
| VInt (z : Z)
| VStr (s : string)
| VDict (d : gmap string value).

Abbreviation document := (gmap string value).

Inductive exn : Type :=
| KeyError (k : string)
| TypeError
| AttributeError
| IndexError
| WriteError.

Inductive result (A : Type) : Type :=
| Ok (a : A)
| Raise (e : exn).
Arguments Ok {A} a.
Arguments Raise {A} e.

#[export] Instance result_ret : MRet result := λ A a, Ok a.
#[export] Instance result_bind : MBind result := λ A B f r,
  match r with
  | Ok a => f a
  | Raise e => Raise e
  end.

(** Code with effects: a state monad over [S] in which an exception ends the
    run and leaves the state as the code had made it so far. *)
Definition Eff (S A : Type) : Type := S → result A * S.

#[export] Instance Eff_ret {S} : MRet (Eff S) := λ A a s, (Ok a, s).
#[export] Instance Eff_bind {S} : MBind (Eff S) := λ A B f m s,
  match m s with
  | (Ok a, s') => f a s'
  | (Raise e, s') => (Raise e, s')
  end.

Definition lift {S A} (r : result A) : Eff S A := λ s, (r, s).

(** [str(n)] for an integer: its decimal rendering. *)
Definition str (n : Z) : string := NilZero.string_of_int (Z.to_int n).

(** [v[k]] *)
Definition getitem (v : value) (k : string) : result value :=
  match v with
  | VDict d =>
      match d !! k with
      | Some x => Ok x
      | None => Raise (KeyError k)
      end
  | _ => Raise TypeError
  end.

(** [v[k] = x] *)
Definition setitem (v : value) (k : string) (x : value) : result value :=
  match v with
  | VDict d => Ok (VDict (<[k := x]> d))
  | _ => Raise TypeError
  end.

(** [v.get(k, dflt)] *)
Definition get (v : value) (k : string) (dflt : value) : result value :=
  match v with
  | VDict d => Ok (default dflt (d !! k))
  | _ => Raise AttributeError
  end.

(** [a - b] and [a + b] on the values of a document. *)
Definition sub (a b : value) : result value :=
  match a, b with
  | VInt x, VInt y => Ok (VInt (x - y))
  | _, _ => Raise TypeError
  end.

Definition add (a b : value) : result value :=
  match a, b with
  | VInt x, VInt y => Ok (VInt (x + y))
  | VStr x, VStr y => Ok (VStr (x +:+ y))
  | _, _ => Raise TypeError
  end.

(** The argument of [range]. *)
Definition index (v : value) : result Z :=
  match v with
  | VInt z => Ok z
  | _ => Raise TypeError
  end.

(** [l[i]] on a list, with Python's negative indices. *)
Definition list_getitem {A} (l : list A) (i : Z) : result A :=
  let n := Z.of_nat (length l) in
  let j := if decide (i < 0) then i + n else i in
  if decide (0 ≤ j < n) then
    match l !! Z.to_nat j with
    | Some x => Ok x
    | None => Raise IndexError
    end
  else Raise IndexError.

(** [l[a:b]], where a bound may be [None]. *)
Definition slice_bound (n : Z) (dflt : Z) (b : option Z) : Z :=
  match b with
  | None => dflt
  | Some i => let j := if decide (i < 0) then i + n else i in Z.max 0 (Z.min n j)
  end.

Definition slice {A} (l : list A) (a b : option Z) : list A :=
  let n := Z.of_nat (length l) in
  let lo := slice_bound n 0 a in
  let hi := slice_bound n n b in
  take (Z.to_nat (hi - lo)) (drop (Z.to_nat lo) l).

(** [v[k1][k2][k3] = x] *)
Definition setitem3 (v : value) (k1 k2 k3 : string) (x : value) : result value :=
  v1 ← getitem v k1;
  v2 ← getitem v1 k2;
  v2' ← setitem v2 k3 x;
  v1' ← setitem v1 k2 v2';
  setitem v k1 v1'.

End Py.
Export Py.

(** ** The document store

    [db.users] is the collection of ledger records, keyed by the [user_id]
    the commands filter on.  [find_one] returns the record or [None];
    [update_one] applies a [$set] of dotted field paths to the record the
    filter selects and does nothing when there is none (no upsert). *)

Module Mongo.

(** Splitting a field path at its dots. *)
Fixpoint split_dots (s : string) : list string :=
  match s with
  | EmptyString => [EmptyString]
  | String c s' =>
      if Ascii.eqb c "."%char then EmptyString :: split_dots s'
      else match split_dots s' with
           | [] => [String c EmptyString]
           | k :: ks => String c k :: ks
           end
  end.

(** No dot occurs in [s]. *)
Fixpoint dotless (s : string) : bool :=
  match s with
  | EmptyString => true
  | String c s' => negb (Ascii.eqb c "."%char) && dotless s'
  end.

(** [$set] of one path: intermediate documents are created when missing;
    a path that goes through a value that is not a document is refused. *)
Fixpoint set_path (p : list string) (x : value) (d : document) : result document :=
  match p with
  | [] => Raise WriteError
  | k :: p' =>
      match p' with
      | [] => Ok (<[k := x]> d)
      | _ :: _ =>
          match d !! k with
          | None => inner ← set_path p' x ∅; Ok (<[k := VDict inner]> d)
          | Some (VDict d') => inner ← set_path p' x d'; Ok (<[k := VDict inner]> d)
          | Some _ => Raise WriteError
          end
      end
  end.

(** The fields of a [$set], applied in order. *)
Fixpoint set_fields (fields : list (string * value)) (d : document) : result document :=
  match fields with
  | [] => Ok d
  | (path, x) :: rest => d' ← set_path (split_dots path) x d; set_fields rest d'
  end.

Definition find_one (users : gmap string document) (user_id : string) : value :=
  match users !! user_id with
  | Some d => VDict d
  | None => VNone
  end.

(** The update is all-or-nothing: a refused field leaves the record as it was. *)
Definition update_one (users : gmap string document) (user_id : string)
    (fields : list (string * value)) : result (gmap string document) :=
  match users !! user_id with
  | None => Ok users
  | Some d => d' ← set_fields fields d; Ok (<[user_id := d']> users)
  end.

End Mongo.
Export Mongo.

(** ** The administration commands of the leveler *)

Module Leveler.

Record Member : Type := {
  id : Z;
  bot : bool;
  mention : string
}.

(** What a command does besides returning: messages to the invoking channel,
    the writes it issues to the store, pauses, and the call of the level-up
    handler. *)
Inductive event : Type :=
| EvSend (content : string)
| EvSendHelp
| EvEdit (content : string)
| EvSleep (seconds : Z)
| EvUpdate (user_id : string) (fields : list (string * value))
| EvLevelup (user : Member) (userinfo : value) (server channel : Z).

Record World : Type := {
  users : gmap string document;
  log : list event
}.

(** Commands run over the world, with Python's exceptions. *)
Abbreviation M := (Eff World).

Definition emit (e : event) : M unit :=
  λ w, (Ok tt, {| users := users w; log := log w ++ [e] |}).

Definition db_find_one (user_id : string) : M value :=
  λ w, (Ok (find_one (users w) user_id), w).

Definition db_update_one (user_id : string) (fields : list (string * value)) : M unit :=
  λ w,
    let w1 := {| users := users w; log := log w ++ [EvUpdate user_id fields] |} in
    match update_one (users w) user_id fields with
    | Ok us => (Ok tt, {| users := us; log := log w1 |})
    | Raise e => (Raise e, w1)
    end.

Section Commands.

(** The experience curve and the step that makes sure a member has a record
    are methods of the cog defined outside these files. *)
Variable _required_exp : Z → Z.
Variable _level_exp : Z → Z.
Variable _create_user : Member → Z → gmap string document → gmap string document.

Definition create_user (user : Member) (server : Z) : M unit :=
  λ w, (Ok tt, {| users := _create_user user server (users w); log := log w |}).

(** Modelled from the spec: [_handle_levelup] is not in these files; the spec
    has it as a notification and role-sync collaborator whose outcome is not
    fed back into the ledger, so the call is recorded with its arguments. *)
Definition _handle_levelup (user : Member) (userinfo : value) (server channel : Z) : M unit :=
  emit (EvLevelup user userinfo server channel).

Definition main_msg (current total : Z) : string :=
  "Fixing members " +:+ str current +:+ "/" +:+ str total.

(** The body of the loop of [resetranks], for one member; [current] counts
    the members whose record was written. *)
Definition reset_member (guild : Z) (total : Z) (member : Member) (current : Z) : M Z :=
  if bot member then mret current
  else
    userinfo ← db_find_one (str (id member));
    match userinfo with
    | VNone => mret current
    | _ =>
        old_total ← lift (getitem userinfo "total_exp");
        standing ← lift (get userinfo (str guild) (VDict ∅));
        cur ← lift (get standing "current_exp" (VInt 0));
        total_exp ← lift (sub old_total cur);
        _ ← db_update_one (str (id member))
              [("servers." +:+ str guild +:+ ".level", VInt 0);
               ("servers." +:+ str guild +:+ ".current_exp", VInt 0);
               ("total_exp", total_exp)];
        let current := current + 1 in
        if decide (current `mod` 100 = 0) then
          _ ← emit (EvEdit (main_msg 0 total));
          _ ← emit (EvSleep 5);
          mret current
        else mret current
    end.

Fixpoint reset_loop (guild total : Z) (members : list Member) (current : Z) : M Z :=
  match members with
  | [] => mret current
  | member :: rest =>
      current' ← reset_member guild total member current;
      reset_loop guild total rest current'
  end.

Definition resetranks (guild : Z) (members : list Member) : M unit :=
  let total := Z.of_nat (length members) in
  _ ← emit (EvSend (main_msg 0 total));
  _ ← reset_loop guild total members 0;
  emit (EvSend "Finished resetting everyone's experience and levels. Roles will be reset automatically the next time they would earn exp.").

(** [old_server_exp] after the loop over [range(level)]. *)
Definition old_server_exp (level : Z) : Z :=
  foldl (λ acc i, acc + _required_exp i) 0 (seqZ 0 level).

Definition setlevel (server channel : Z) (user : Member) (level : Z) : M unit :=
  if bot user then emit EvSendHelp
  else
    _ ← create_user user server;
    userinfo ← db_find_one (str (id user));
    if decide (level < 0) then emit (EvSend "Please enter a positive number.")
    else
      servers ← lift (getitem userinfo "servers");
      standing ← lift (getitem servers (str server));
      old_level ← lift (getitem standing "level");
      n ← lift (index old_level);
      total0 ← lift (getitem userinfo "total_exp");
      total1 ← lift (sub total0 (VInt (old_server_exp n)));
      userinfo ← lift (setitem userinfo "total_exp" total1);
      total1 ← lift (getitem userinfo "total_exp");
      servers ← lift (getitem userinfo "servers");
      standing ← lift (getitem servers (str server));
      cur ← lift (getitem standing "current_exp");
      total2 ← lift (sub total1 cur);
      userinfo ← lift (setitem userinfo "total_exp" total2);
      let total_exp := _level_exp level in
      userinfo ← lift (setitem3 userinfo "servers" (str server) "current_exp" (VInt 0));
      userinfo ← lift (setitem3 userinfo "servers" (str server) "level" (VInt level));
      total2 ← lift (getitem userinfo "total_exp");
      total3 ← lift (add total2 (VInt total_exp));
      userinfo ← lift (setitem userinfo "total_exp" total3);
      new_total ← lift (getitem userinfo "total_exp");
      _ ← db_update_one (str (id user))
            [("servers." +:+ str server +:+ ".level", VInt level);
             ("servers." +:+ str server +:+ ".current_exp", VInt 0);
             ("total_exp", new_total)];
      _ ← emit (EvSend (mention user +:+ "'s Level has been set to `" +:+ str level +:+ "`."));
      _handle_levelup user userinfo server channel.

End Commands.

(** Modelled from the spec: [_create_user] is not in these files.  The spec
    has it as the collaborator that makes sure a user exists: a record is
    created lazily on first activity in a guild.  A member without a record
    gets one with no experience, and a record without an entry for the guild
    gets one at level 0. *)
Definition new_standing : value :=
  VDict {[ "level"%string := VInt 0; "current_exp"%string := VInt 0 ]}.

Definition ensure_user_exists (user : Member) (server : Z)
    (us : gmap string document) : gmap string document :=
  match us !! str (id user) with
  | None =>
      <[str (id user) :=
          {[ "user_id"%string := VStr (str (id user));
             "total_exp"%string := VInt 0;
             "servers"%string := VDict {[ str server := new_standing ]} ]}]> us
  | Some d =>
      match d !! "servers"%string with
      | Some (VDict svs) =>
          match svs !! str server with
          | Some _ => us
          | None =>
              <[str (id user) :=
                  <["servers"%string := VDict (<[str server := new_standing]> svs)]> d]> us
          end
      | _ => us
      end
  end.

(** *** The ledger of a record *)

Section Ledger.

Variable _level_exp : Z → Z.

(** The level and the experience of a guild entry. *)
Definition standing (v : value) : option (Z * Z) :=
  match v with
  | VDict st =>
      match st !! "level"%string, st !! "current_exp"%string with
      | Some (VInt l), Some (VInt c) => Some (l, c)
      | _, _ => None
      end
  | _ => None
  end.

(** What a guild contributes: the experience that reaches its level plus the
    experience gained in that level. *)
Definition guild_exp (v : value) : Z :=
  match standing v with
  | Some (l, c) => _level_exp l + c
  | None => 0
  end.

Definition servers_exp (svs : gmap string value) : Z :=
  map_fold (λ _ v acc, guild_exp v + acc) 0 svs.

(** [total_exp] is the sum of what the guilds of [servers] contribute. *)
Definition ledger_invariant (doc : document) : Prop :=
  match doc !! "total_exp"%string, doc !! "servers"%string with
  | Some (VInt t), Some (VDict svs) =>
      map_Forall (λ _ v, is_Some (standing v)) svs ∧ t = servers_exp svs
  | _, _ => False
  end.

#[export] Instance ledger_invariant_dec doc : Decision (ledger_invariant doc).
Proof.
  unfold ledger_invariant.
  destruct (doc !! "total_exp"%string) as [[| t | |]|];
    destruct (doc !! "servers"%string) as [[| | |svs]|]; apply _.
Defined.

End Ledger.

(** Whether the record of [user_id] keeps its ledger. *)
Definition invariant_at (_level_exp : Z → Z) (us : gmap string document)
    (user_id : string) : bool :=
  match us !! user_id with
  | Some doc => bool_decide (ledger_invariant _level_exp doc)
  | None => false
  end.

(** What the store holds for [user_id] in [guild]: [total_exp], and the
    level and experience of the guild entry. *)
Definition ledger_of (us : gmap string document) (user_id : string) (guild : Z)
    : option (Z * Z * Z) :=
  match us !! user_id with
  | Some doc =>
      match doc !! "total_exp"%string, doc !! "servers"%string with
      | Some (VInt t), Some (VDict svs) =>
          match svs !! str guild with
          | Some v =>
              match standing v with
              | Some (l, c) => Some (t, l, c)
              | None => None
              end
          | None => None
          end
      | _, _ => None
      end
  | None => None
  end.

Definition total_exp_of (us : gmap string document) (user_id : string) : option Z :=
  match us !! user_id with
  | Some doc =>
      match doc !! "total_exp"%string with
      | Some (VInt t) => Some t
      | _ => None
      end
  | None => None
  end.

Definition standing_of (us : gmap string document) (user_id : string) (guild : Z)
    : option (Z * Z) :=
  match us !! user_id with
  | Some doc =>
      match doc !! "servers"%string with
      | Some (VDict svs) =>
          match svs !! str guild with
          | Some v => standing v
          | None => None
          end
      | _ => None
      end
  | None => None
  end.

(** The writes a log holds for the record of [user_id]. *)
Fixpoint writes_to (user_id : string) (l : list event) : list (list (string * value)) :=
  match l with
  | [] => []
  | EvUpdate u fields :: rest =>
      if decide (u = user_id) then fields :: writes_to user_id rest
      else writes_to user_id rest
  | _ :: rest => writes_to user_id rest
  end.

(** The document a [$set] of the three ledger fields leaves. *)
Definition with_standing (doc : document) (svs st : gmap string value)
    (g : Z) (lvl : Z) (total : value) : document :=
  <["total_exp"%string := total]>
    (<["servers"%string :=
         VDict (<[str g := VDict (<["current_exp"%string := VInt 0]>
                                   (<["level"%string := VInt lvl]> st))]> svs)]> doc).

Definition setlevel_fields (server level new_total : Z) : list (string * value) :=
  [("servers." +:+ str server +:+ ".level", VInt level);
   ("servers." +:+ str server +:+ ".current_exp", VInt 0);
   ("total_exp"%string, VInt new_total)].

(** What one turn of the loop of [resetranks] can do to the world. *)
Record reset_step (m : Member) (w w' : World) : Prop := {
  step_dom : dom (users w') = dom (users w);
  step_other : ∀ k, k ≠ str (id m) → users w' !! k = users w !! k;
  step_log : ∃ new, log w' = log w ++ new ∧
      ∀ u f, EvUpdate u f ∈ new → u = str (id m);
  step_skip : bot m = true ∨ users w !! str (id m) = None → w' = w
}.

(** A field of the record of [user_id]. *)
Definition record_field (us : gmap string document) (user_id field : string)
    : option value :=
  match us !! user_id with
  | Some doc => doc !! field
  | None => None
  end.

(** A record the reset can rewrite: [total_exp] is an integer, no field at
    the top of the record is named after the guild, and [servers] is a
    document whose entry for the guild, when there is one, is a document. *)
Definition resettable (guild : Z) (doc : document) : bool :=
  match doc !! "total_exp"%string, doc !! str guild, doc !! "servers"%string with
  | Some (VInt _), None, Some (VDict svs) =>
      match svs !! str guild with
      | None | Some (VDict _) => true
      | Some _ => false
      end
  | _, _, _ => false
  end.

(** A member the reset gets past: an automated account, a member without a
    record, or one whose record it can rewrite. *)
Definition reset_ready (guild : Z) (us : gmap string document) (m : Member) : bool :=
  bot m ||
  match us !! str (id m) with
  | None => true
  | Some doc => resettable guild doc
  end.

(** The pauses and the writes a log holds. *)
Fixpoint pauses (l : list event) : nat :=
  match l with
  | [] => O
  | EvSleep _ :: rest => S (pauses rest)
  | _ :: rest => pauses rest
  end.

Fixpoint writes (l : list event) : nat :=
  match l with
  | [] => O
  | EvUpdate _ _ :: rest => S (writes rest)
  | _ :: rest => writes rest
  end.

(** The entry of a guild in [servers], empty when there is none. *)
Definition entry_of (svs : gmap string value) (guild : Z) : document :=
  match svs !! str guild with
  | Some (VDict st) => st
  | _ => ∅
  end.

(** A member the reset leaves as it is: an automated account, a member
    without a record, or one already at level 0 with no experience. *)
Definition at_rest (guild : Z) (us : gmap string document) (m : Member) : bool :=
  bot m ||
  match us !! str (id m) with
  | None => true
  | Some doc =>
      match ledger_of us (str (id m)) guild, doc !! str guild with
      | Some (_, 0, 0), None => true
      | _, _ => false
      end
  end.

(** What a turn of the loop of [resetranks] logs after its write. *)
Definition progress (total current : Z) : list event :=
  if decide (current `mod` 100 = 0) then [EvEdit (main_msg 0 total); EvSleep 5] else [].

(** The world [resetranks] starts its loop in: the first message is sent. *)
Definition greeted (members : list Member) (w : World) : World :=
  {| users := users w;
     log := log w ++ [EvSend (main_msg 0 (Z.of_nat (length members)))] |}.

(** Modelled from the spec: the experience curve is not in these files.  The
    spec has [required_exp level] as the experience needed to advance from
    [level] to [level + 1] and [level_exp level] as the cumulative experience
    needed to reach [level] from zero.  [cumulative required_exp level_exp
    level] says so up to [level]. *)
Definition cumulative (required_exp level_exp : Z → Z) (level : Z) : Prop :=
  level_exp 0 = 0 ∧
  ∀ n, 0 ≤ n < level → level_exp (n + 1) = level_exp n + required_exp n.

(** *** The experience ban

    [chat_block] is a time stamp, a float, which the documents above do not
    hold: the store of [xpban] keeps the [chat_block] of each record beside
    the record, under the same [user_id]. *)

Inductive ban_event : Type :=
| BanSend (content : string)
| BanTick.

Record BanWorld (float : Type) : Type := {
  records : gmap string document;
  chat_blocks : gmap string float;
  ban_log : list ban_event
}.
Arguments records {float} _.
Arguments chat_blocks {float} _.
Arguments ban_log {float} _.

(** [user: Union[discord.User, int]] *)
Inductive ban_target : Type :=
| BanUser (user : Member)
| BanId (user_id : Z).

Definition ban_target_id (user : ban_target) : Z :=
  match user with
  | BanUser u => id u
  | BanId n => n
  end.

(** [try: body except Exception as exc: handler else: orelse] *)
Definition try_except_else {S A} (body : Eff S A) (handler : exn → Eff S unit)
    (orelse : Eff S unit) : Eff S unit :=
  λ s, match body s with
       | (Ok _, s') => orelse s'
       | (Raise exc, s') => handler exc s'
       end.

Section XpBan.

(** Python's floats and their sum, what [time.time()] returns when the
    command reads the clock, and [str(exc)] for an exception of the store. *)
Variable float : Type.
Variable float_add : float → float → float.
Variable time_time : float.
Variable exc_text : exn → string.

Abbreviation B := (Eff (BanWorld float)).

Definition ban_send (content : string) : B unit :=
  λ w, (Ok tt, {| records := records w; chat_blocks := chat_blocks w;
                  ban_log := ban_log w ++ [BanSend content] |}).

Definition ban_tick : B unit :=
  λ w, (Ok tt, {| records := records w; chat_blocks := chat_blocks w;
                  ban_log := ban_log w ++ [BanTick] |}).

Definition ban_find_one (user_id : string) : B value :=
  λ w, (Ok (find_one (records w) user_id), w).

(** [update_one] with a [$set] of [chat_block]: without a record for the
    filter nothing is written (no upsert). *)
Definition set_chat_block (user_id : string) (chat_block : float) : B unit :=
  λ w, (Ok tt, {| records := records w;
                  chat_blocks :=
                    match records w !! user_id with
                    | Some _ => <[user_id := chat_block]> (chat_blocks w)
                    | None => chat_blocks w
                    end;
                  ban_log := ban_log w |}).

(** [bantime_seconds] is [bantime.total_seconds()].  A record the filter
    finds holds its [user_id], so [not userinfo] is [userinfo is None]. *)
Definition xpban (bantime_seconds : float) (user : ban_target) : B unit :=
  user_id ← match user with
            | BanId n =>
                userinfo ← ban_find_one (str n);
                match userinfo with
                | VNone =>
                    _ ← ban_send ("Discord user with ID `" +:+ str n +:+ "` not found.");
                    mret None
                | _ => mret (Some n)
                end
            | BanUser u => mret (Some (id u))
            end;
  match user_id with
  | None => mret tt
  | Some user_id =>
      let chat_block := float_add time_time bantime_seconds in
      try_except_else (set_chat_block (str user_id) chat_block)
        (λ exc, ban_send ("Unable to add chat block: " +:+ exc_text exc))
        ban_tick
  end.

End XpBan.

(** An experience curve with the values of the worked example:
    [required_exp(0) = 100], [required_exp(1) = 150], [level_exp(4) = 600]. *)
Definition example_required_exp (i : Z) : Z :=
  if decide (i = 0) then 100
  else if decide (i = 1) then 150
  else if decide (i = 2) then 170
  else 180.

Definition example_level_exp (n : Z) : Z := old_server_exp example_required_exp n.

(** A member, an automated account, and a store with one record. *)
Definition alice : Member := {| id := 42; bot := false; mention := "<@42>" |}.
Definition robot : Member := {| id := 7; bot := true; mention := "<@7>" |}.
Definition carol : Member := {| id := 99; bot := false; mention := "<@99>" |}.

Definition example_record (total level current : Z) : document :=
  {[ "user_id"%string := VStr "42";
     "total_exp"%string := VInt total;
     "servers"%string :=
       VDict {[ "1000"%string :=
                  VDict {[ "level"%string := VInt level;
                           "current_exp"%string := VInt current ]} ]} ]}.

Definition example_world (total level current : Z) : World :=
  {| users := {[ "42"%string := example_record total level current ]}; log := [] |}.

(** A store in which the record of [carol] has lost its [total_exp]. *)
Definition broken_world : World :=
  {| users := {[ "42"%string := example_record 130 1 30;
                 "99"%string := {[ "user_id"%string := VStr "99" ]} ]};
     log := [] |}.

(** The cumulative experience of the curve above, as a table. *)
Definition table_level_exp (n : Z) : Z :=
  if decide (n = 0) then 0
  else if decide (n = 1) then 100
  else if decide (n = 2) then 250
  else if decide (n = 3) then 420
  else 600 + 180 * (n - 4).

(** The ban with time in whole seconds, where no rounding interferes; the
    clock reads 1000. *)
Definition example_xpban : Z → ban_target → Eff (BanWorld Z) unit :=
  xpban Z Z.add 1000 (λ _, "error"%string).

Definition ban_world : BanWorld Z :=
  {| records := users (example_world 500 2 30); chat_blocks := ∅; ban_log := [] |}.

End Leveler.

(** ** The pagination view (menus/base.py) *)

Module Menus.

(** What [format_page] can give back, and the keyword arguments made of it. *)
Inductive formatted : Type :=
| FDict (content embed : option string)
| FStr (s : string)
| FEmbed (e : string)
| FOther.

Record kwargs : Type := {
  content : option string;
  embed : option string
}.

(** The interface of [menus.PageSource] as the view uses it.  A source that
    cannot tell its number of pages answers [None]; the attribute
    [select_options] may be missing; [format_page] is given the page the
    view is on and the page to format. *)
Record PageSource (Page : Type) : Type := {
  get_max_pages : option Z;
  is_paginating : bool;
  select_options : option (list string);
  get_page : Z → result Page;
  format_page : Z → Page → result formatted
}.
Arguments get_max_pages {Page} _.
Arguments is_paginating {Page} _.
Arguments select_options {Page} _.
Arguments get_page {Page} _ _.
Arguments format_page {Page} _ _ _.

Section View.

Context {Page : Type}.

Record BaseView : Type := {
  _source : PageSource Page;
  page_start : Z;
  current_page : Z;
  first_item_disabled : bool;
  back_button_disabled : bool;
  forward_button_disabled : bool;
  last_item_disabled : bool;
  select_menu : list string;
  (** the edits sent through the interactions, oldest first *)
  edits : list kwargs
}.

Abbreviation V := (Eff BaseView).

Definition set_navigation (disabled : bool) : V unit :=
  λ v, (Ok tt, {| _source := _source v; page_start := page_start v;
                  current_page := current_page v;
                  first_item_disabled := disabled;
                  back_button_disabled := disabled;
                  forward_button_disabled := disabled;
                  last_item_disabled := disabled;
                  select_menu := select_menu v; edits := edits v |}).

Definition disable_navigation : V unit := set_navigation true.
Definition enable_navigation : V unit := set_navigation false.

Definition set_current_page (n : Z) : V unit :=
  λ v, (Ok tt, {| _source := _source v; page_start := page_start v;
                  current_page := n;
                  first_item_disabled := first_item_disabled v;
                  back_button_disabled := back_button_disabled v;
                  forward_button_disabled := forward_button_disabled v;
                  last_item_disabled := last_item_disabled v;
                  select_menu := select_menu v; edits := edits v |}).

Definition set_select_menu (options : list string) : V unit :=
  λ v, (Ok tt, {| _source := _source v; page_start := page_start v;
                  current_page := current_page v;
                  first_item_disabled := first_item_disabled v;
                  back_button_disabled := back_button_disabled v;
                  forward_button_disabled := forward_button_disabled v;
                  last_item_disabled := last_item_disabled v;
                  select_menu := options; edits := edits v |}).

Definition edit_message (k : kwargs) : V unit :=
  λ v, (Ok tt, {| _source := _source v; page_start := page_start v;
                  current_page := current_page v;
                  first_item_disabled := first_item_disabled v;
                  back_button_disabled := back_button_disabled v;
                  forward_button_disabled := forward_button_disabled v;
                  last_item_disabled := last_item_disabled v;
                  select_menu := select_menu v; edits := edits v ++ [k] |}).

Definition view : V BaseView := λ v, (Ok v, v).

(** [getattr(self.source, "select_options", [])] *)
Definition view_select_options (v : BaseView) : list string :=
  default [] (select_options (_source v)).

Definition _get_select_menu (v : BaseView) : list string :=
  let options := view_select_options v in
  let n := Z.of_nat (length options) in
  if decide (n > 25) then
    if decide (12 < current_page v ∧ current_page v < n - 25) then
      slice options (Some (current_page v - 12)) (Some (current_page v + 13))
    else if decide (current_page v >= n - 25) then
      slice options (Some (n - 25)) None
    else slice options None (Some 25)
  else slice options None (Some 25).

Definition _get_kwargs_from_page (page : Page) : V (option kwargs) :=
  v ← view;
  value ← lift (format_page (_source v) (current_page v) page);
  match value with
  | FDict c e => mret (Some {| content := c; embed := e |})
  | FStr s => mret (Some {| content := Some s; embed := None |})
  | FEmbed e => mret (Some {| content := None; embed := Some e |})
  | FOther => mret None
  end.

Definition show_page (page_number : Z) : V unit :=
  v ← view;
  _ ← (if is_paginating (_source v) then enable_navigation else disable_navigation);
  options ← lift (match select_options (_source v) with
                  | Some l => Ok l
                  | None => Raise AttributeError
                  end);
  _ ← (if bool_decide (Z.of_nat (length options) > 25) && is_paginating (_source v)
       then v ← view; set_select_menu (_get_select_menu v)
       else mret tt);
  page ← lift (get_page (_source v) page_number);
  _ ← set_current_page page_number;
  kw ← _get_kwargs_from_page page;
  match kw with
  | Some k => edit_message k
  | None => lift (Raise TypeError)
  end.

(** [try: body except IndexError: pass] *)
Definition ignoring_IndexError (body : V unit) : V unit :=
  λ v, match body v with
       | (Raise IndexError, v') => (Ok tt, v')
       | r => r
       end.

Definition show_checked_page (page_number : Z) : V unit :=
  v ← view;
  let max_pages := get_max_pages (_source v) in
  ignoring_IndexError
    match max_pages with
    | None => show_page page_number
    | Some max_pages =>
        if decide (page_number >= max_pages) then show_page 0
        else if decide (page_number < 0) then show_page (max_pages - 1)
        else if decide (max_pages > page_number ∧ page_number >= 0) then show_page page_number
        else mret tt
    end.

(** The callbacks of the forward and back buttons. *)
Definition ForwardButton_callback : V unit :=
  v ← view; show_checked_page (current_page v + 1).

Definition BackButton_callback : V unit :=
  v ← view; show_checked_page (current_page v - 1).

(** [BaseView.__init__]: the view starts on [page_start], with the
    navigation enabled. *)
Definition BaseView_init (source : PageSource Page) (page_start : Z) : BaseView :=
  let v := {| _source := source; page_start := page_start;
              current_page := page_start;
              first_item_disabled := false;
              back_button_disabled := false;
              forward_button_disabled := false;
              last_item_disabled := false;
              select_menu := []; edits := [] |} in
  {| _source := source; page_start := page_start;
     current_page := page_start;
     first_item_disabled := false;
     back_button_disabled := false;
     forward_button_disabled := false;
     last_item_disabled := false;
     select_menu := _get_select_menu v; edits := [] |}.

(** The page [show_checked_page] asks [show_page] for when the source knows
    its number of pages. *)
Definition checked_page (max_pages page_number : Z) : Z :=
  if decide (page_number >= max_pages) then 0
  else if decide (page_number < 0) then max_pages - 1
  else page_number.

(** The callbacks of the buttons to the first and to the last page;
    [get_max_pages() - 1] is a [TypeError] when the source answers [None]. *)
Definition FirstItemButton_callback : V unit := show_page 0.

Definition LastItemButton_callback : V unit :=
  v ← view;
  match get_max_pages (_source v) with
  | Some max_pages => show_page (max_pages - 1)
  | None => lift (Raise TypeError)
  end.

(** The view after [n] presses of the forward button, each a callback of
    its own. *)
Definition forward_presses (n : nat) (v : BaseView) : BaseView :=
  Nat.iter n (λ v, (ForwardButton_callback v).2) v.

(** A source that has its [select_options] and delivers each of the [m]
    pages it reports. *)
Definition serves_pages (s : PageSource Page) (m : Z) : Prop :=
  get_max_pages s = Some m ∧
  is_Some (select_options s) ∧
  ∀ q, 0 ≤ q < m → ∃ page, get_page s q = Ok page.

(** Where the window of [_get_select_menu] starts in the options. *)
Definition select_menu_start (v : BaseView) : Z :=
  let n := Z.of_nat (length (view_select_options v)) in
  if decide (n > 25) then
    if decide (12 < current_page v ∧ current_page v < n - 25) then current_page v - 12
    else if decide (current_page v >= n - 25) then n - 25
    else 0
  else 0.

Definition set_source (source : PageSource Page) : V unit :=
  λ v, (Ok tt, {| _source := source; page_start := page_start v;
                  current_page := current_page v;
                  first_item_disabled := first_item_disabled v;
                  back_button_disabled := back_button_disabled v;
                  forward_button_disabled := forward_button_disabled v;
                  last_item_disabled := last_item_disabled v;
                  select_menu := select_menu v; edits := edits v |}).

Definition change_source (new_source : PageSource Page) : V (option kwargs) :=
  _ ← set_current_page 0;
  _ ← set_source new_source;
  v ← view;
  _ ← (if is_paginating (_source v) then mret tt else disable_navigation);
  v ← view;
  page ← lift (get_page (_source v) (page_start v));
  _get_kwargs_from_page page.

(** [BaseView.get_page]: the page is fetched and becomes the current one,
    nothing is sent. *)
Definition BaseView_get_page (page_number : Z) : V (option kwargs) :=
  v ← view;
  _ ← (if is_paginating (_source v) then enable_navigation else disable_navigation);
  page ← lift (get_page (_source v) page_number);
  _ ← set_current_page page_number;
  _get_kwargs_from_page page.

End View.
Arguments BaseView : clear implicits.

(** A source over a list of texts, one per page. *)
Definition list_source (entries : list string) : PageSource string :=
  {| get_max_pages := Some (Z.of_nat (length entries));
     is_paginating := bool_decide (Z.of_nat (length entries) > 1);
     select_options := Some entries;
     get_page := λ n, list_getitem entries n;
     format_page := λ _ page, Ok (FStr page) |}.

(** A source that still reports three pages after its entries are gone. *)
Definition stale_source : PageSource string :=
  {| get_max_pages := Some 3;
     is_paginating := true;
     select_options := Some [];
     get_page := λ n, list_getitem [] n;
     format_page := λ _ page, Ok (FStr page) |}.

(** A source that cannot tell its number of pages: page [n] is the text of
    [n]. *)
Definition endless_source : PageSource string :=
  {| get_max_pages := None;
     is_paginating := true;
     select_options := Some [];
     get_page := λ n, Ok (str n);
     format_page := λ _ page, Ok (FStr page) |}.

(** A source without the attribute [select_options]. *)
Definition bare_source : PageSource string :=
  {| get_max_pages := Some 3;
     is_paginating := true;
     select_options := None;
     get_page := λ n, list_getitem ["a"; "b"; "c"]%string n;
     format_page := λ _ page, Ok (FStr page) |}.

End Menus.

(** ** Number formatting for the image generators (def_imgen_utils.py) *)

Module ImgenUtils.

Section Humanize.

(** Python's floating-point library, on a positive integer [number]:
    [log_floor number] is [int(floor(log(number, 1000.0)))] and
    [format_0f number magnitude] is [f"{number / 1000.0**magnitude:.0f}"]. *)
Variable log_floor : Z → Z.
Variable format_0f : Z → Z → string.

Definition units : list string := [""; "K"; "M"; "B"; "T"; "Q"]%string.

Definition _humanize_number (number : Z) : result value :=
  if decide (number = 0) then Ok (VInt 0)
  else
    let negative := if decide (number < 0) then "-"%string else ""%string in
    let number := if decide (number < 0) then number * -1 else number in
    let magnitude := log_floor number in
    if decide (magnitude >= Z.of_nat (length units)) then
      last_unit ← list_getitem units (-1);
      Ok (VStr (">999" +:+ last_unit))
    else
      unit ← list_getitem units magnitude;
      Ok (VStr (negative +:+ format_0f number magnitude +:+ unit)).

End Humanize.

(** The floor of the base-1000 logarithm of a positive integer, in exact
    arithmetic: what [log_floor] is when no rounding interferes. *)
Fixpoint ilog1000_aux (fuel : nat) (n : Z) : Z :=
  match fuel with
  | O => 0
  | S fuel' => if decide (n < 1000) then 0 else 1 + ilog1000_aux fuel' (n / 1000)
  end.

Definition ilog1000 (n : Z) : Z := ilog1000_aux (Z.to_nat (Z.log2 n)) n.

(** The quotient [number / 1000^magnitude] rounded to the nearest integer,
    ties to even, in exact arithmetic, and printed. *)
Definition exact_0f (number magnitude : Z) : string :=
  let d := 1000 ^ magnitude in
  let q := number `div` d in
  let r := number `mod` d in
  str (if decide (2 * r < d) then q
       else if decide (2 * r > d) then q + 1
       else if Z.even q then q else q + 1).

(** [format(c, "02x")]: lower-case hexadecimal, the sign first, zeros up to
    two characters. *)
Definition format_02x (c : Z) : string :=
  let s := HexadecimalString.NilZero.string_of_int (Z.to_hex_int c) in
  if decide (String.length s < 2)%nat then "0" +:+ s else s.

(** The end of [_auto_color], from what the clustering returned: [codes] are
    the centres of the clusters (their components as [astype(int)] gives
    them) and [counts] the number of pixels of each. *)
Fixpoint freq_index_from (index : Z) (counts : list Z) : list (Z * Z) :=
  match counts with
  | [] => []
  | count :: rest => (index, count) :: freq_index_from (index + 1) rest
  end.

(** [sorted(freq_index, key=operator.itemgetter(1), reverse=True)]: by count,
    largest first, entries of equal count in the order they had. *)
Fixpoint insert_desc (x : Z * Z) (l : list (Z * Z)) : list (Z * Z) :=
  match l with
  | [] => [x]
  | y :: l' => if decide (x.2 < y.2) then y :: insert_desc x l' else x :: l
  end.

Definition sorted_desc (l : list (Z * Z)) : list (Z * Z) := foldr insert_desc [] l.

Definition color_of (codes : list (list Z)) (sorted_list : list (Z * Z)) (rank : Z)
    : result string :=
  let color_index := Z.min rank (Z.of_nat (length codes)) in
  entry ← list_getitem sorted_list color_index;
  peak ← list_getitem codes entry.1;
  Ok (String.concat "" (format_02x <$> peak)).

Fixpoint colors_of (codes : list (list Z)) (sorted_list : list (Z * Z)) (ranks : list Z)
    : result (list string) :=
  match ranks with
  | [] => Ok []
  | rank :: rest =>
      color ← color_of codes sorted_list rank;
      colors ← colors_of codes sorted_list rest;
      Ok (color :: colors)
  end.

Definition auto_color_colors (codes : list (list Z)) (counts ranks : list Z)
    : result (list string) :=
  colors_of codes (sorted_desc (freq_index_from 0 counts)) ranks.

(** The order of [sorted_list]: a larger count first, and of two equal
    counts the one met first. *)
Definition before (a b : Z * Z) : Prop := b.2 < a.2 ∨ (a.2 = b.2 ∧ a.1 < b.1).

(** A table of a font's [cmap]. *)
Record CmapTable : Type := {
  isUnicode : bool;
  cmap : gmap Z string
}.

Fixpoint char_in_font (unicode_char : Z) (tables : list CmapTable) : bool :=
  match tables with
  | [] => false
  | table :: rest =>
      if isUnicode table then
        if decide (is_Some (cmap table !! unicode_char)) then true
        else char_in_font unicode_char rest
      else char_in_font unicode_char rest
  end.

(** Three clusters and the pixels counted for each. *)
Definition example_codes : list (list Z) := [[255; 0; 0]; [0; 255; 0]; [1; 2; 3]].
Definition example_counts : list Z := [3; 7; 7].

End ImgenUtils.

(** * Properties *)

(** ** Field paths *)

Section Paths.

Lemma split_dots_dotless s : dotless s = true → split_dots s = [s].
Proof.
  induction s as [|c s IH]; simpl; [done|].
  destruct (Ascii.eqb c "."); simpl; [done|].
  intros Hs. by rewrite IH.
Qed.

Lemma split_dots_app a b :
  dotless a = true → split_dots (a +:+ "." +:+ b) = a :: split_dots b.
Proof.
  induction a as [|c a IH]; simpl; [done|].
  destruct (Ascii.eqb c "."); simpl; [done|].
  intros Ha. by rewrite IH.
Qed.

Lemma dotless_uint u : dotless (NilEmpty.string_of_uint u) = true.
Proof. induction u; simpl; auto. Qed.

Lemma dotless_str n : dotless (str n) = true.
Proof.
  unfold str, NilZero.string_of_int, NilZero.string_of_uint.
  destruct (Z.to_int n) as [u|u]; destruct u; simpl; auto using dotless_uint.
Qed.

Lemma servers_path g field :
  dotless field = true →
  split_dots ("servers." +:+ str g +:+ "." +:+ field) = ["servers"%string; str g; field].
Proof.
  intros Hf.
  change ("servers." +:+ str g +:+ "." +:+ field)
    with ("servers" +:+ "." +:+ (str g +:+ "." +:+ field)).
  rewrite split_dots_app; [|done].
  rewrite split_dots_app; [|apply dotless_str].
  by rewrite split_dots_dotless.
Qed.

End Paths.

(** ** Reading and writing a record *)

Section Records.
Import Leveler.
#[local] Arguments set_fields : simpl never.

Lemma standing_Some v l c :
  standing v = Some (l, c) →
  ∃ st, v = VDict st ∧ st !! "level"%string = Some (VInt l)
        ∧ st !! "current_exp"%string = Some (VInt c).
Proof.
  destruct v as [| | |st]; simpl; try done.
  destruct (st !! "level"%string) as [[| l' | |]|] eqn:Hl; try done.
  destruct (st !! "current_exp"%string) as [[| c' | |]|] eqn:Hc; try done.
  intros [= -> ->]. eauto.
Qed.

Lemma ledger_of_Some us uid g t l c :
  ledger_of us uid g = Some (t, l, c) →
  ∃ doc svs st,
    us !! uid = Some doc ∧
    doc !! "total_exp"%string = Some (VInt t) ∧
    doc !! "servers"%string = Some (VDict svs) ∧
    svs !! str g = Some (VDict st) ∧
    st !! "level"%string = Some (VInt l) ∧
    st !! "current_exp"%string = Some (VInt c).
Proof.
  unfold ledger_of.
  destruct (us !! uid) as [doc|] eqn:Hdoc; [|done].
  destruct (doc !! "total_exp"%string) as [[| t' | |]|] eqn:Ht; try done.
  destruct (doc !! "servers"%string) as [[| | |svs]|] eqn:Hs; try done.
  destruct (svs !! str g) as [v|] eqn:Hv; [|done].
  destruct (standing v) as [[l' c']|] eqn:Hst; [|done].
  intros [= -> -> ->].
  apply standing_Some in Hst as (st & -> & Hl & Hc).
  by exists doc, svs, st.
Qed.

Lemma set_fields_standing doc svs st g lvl total :
  doc !! "servers"%string = Some (VDict svs) →
  svs !! str g = Some (VDict st) →
  set_fields
    [("servers." +:+ str g +:+ ".level", VInt lvl);
     ("servers." +:+ str g +:+ ".current_exp", VInt 0);
     ("total_exp"%string, total)] doc
  = Ok (with_standing doc svs st g lvl total).
Proof.
  intros Hs Hg. unfold set_fields.
  change (".level"%string) with ("." +:+ "level").
  change (".current_exp"%string) with ("." +:+ "current_exp").
  rewrite !servers_path by done.
  cbn [set_path]. rewrite Hs, Hg. cbn.
  rewrite lookup_insert_eq. cbn. rewrite lookup_insert_eq. cbn.
  rewrite !insert_insert_eq. done.
Qed.

Lemma str_inj n m : str n = str m → n = m.
Proof.
  unfold str. intros H.
  assert (Hnil : ∀ z, Z.to_int z ≠ Decimal.Pos Decimal.Nil ∧ Z.to_int z ≠ Decimal.Neg Decimal.Nil).
  { intros z. split; intros Hz; pose proof (DecimalZ.of_to z) as Hof;
      rewrite Hz in Hof; cbn in Hof; subst z; discriminate Hz. }
  assert (Hnm : Some (Z.to_int n) = Some (Z.to_int m)).
  { rewrite <- (NilZero.isi (Z.to_int n)), <- (NilZero.isi (Z.to_int m));
      try apply Hnil. rewrite H. reflexivity. }
  injection Hnm as Hnm.
  rewrite <- (DecimalZ.of_to n), <- (DecimalZ.of_to m), Hnm.
  reflexivity.
Qed.

Lemma update_one_dom us uid fields us' :
  update_one us uid fields = Ok us' → dom us' = dom us.
Proof.
  unfold update_one. destruct (us !! uid) as [d|] eqn:Hd; [|by intros [= ->]].
  destruct (set_fields fields d) as [d'|e]; cbn; [|done].
  intros [= <-]. rewrite dom_insert_L.
  apply subseteq_union_1_L, singleton_subseteq_l, elem_of_dom. eauto.
Qed.

Lemma update_one_other us uid fields us' k :
  update_one us uid fields = Ok us' → k ≠ uid → us' !! k = us !! k.
Proof.
  unfold update_one. destruct (us !! uid) as [d|]; [|by intros [= ->]].
  destruct (set_fields fields d) as [d'|e]; cbn; [|done].
  intros [= <-] Hk. by rewrite lookup_insert_ne.
Qed.

Lemma total_exp_of_insert us uid doc t :
  doc !! "total_exp"%string = Some (VInt t) →
  total_exp_of (<[uid := doc]> us) uid = Some t.
Proof. intros Ht. unfold total_exp_of. by rewrite lookup_insert_eq, Ht. Qed.

Lemma with_standing_total doc svs st g lvl t :
  with_standing doc svs st g lvl (VInt t) !! "total_exp"%string = Some (VInt t).
Proof. unfold with_standing. by rewrite lookup_insert_eq. Qed.

Lemma with_standing_servers doc svs st g lvl t :
  with_standing doc svs st g lvl t !! "servers"%string
  = Some (VDict (<[str g := VDict (<["current_exp"%string := VInt 0]>
                                   (<["level"%string := VInt lvl]> st))]> svs)).
Proof.
  unfold with_standing. rewrite lookup_insert_ne by done. by rewrite lookup_insert_eq.
Qed.

Lemma standing_set st lvl :
  standing (VDict (<["current_exp"%string := VInt 0]> (<["level"%string := VInt lvl]> st)))
  = Some (lvl, 0).
Proof.
  cbn. rewrite lookup_insert_ne by done. by rewrite !lookup_insert_eq.
Qed.

Lemma with_standing_id doc svs st g t :
  doc !! "total_exp"%string = Some (VInt t) →
  doc !! "servers"%string = Some (VDict svs) →
  svs !! str g = Some (VDict st) →
  st !! "level"%string = Some (VInt 0) →
  st !! "current_exp"%string = Some (VInt 0) →
  with_standing doc svs st g 0 (VInt t) = doc.
Proof.
  intros Ht Hs Hg Hl Hc. unfold with_standing.
  rewrite (insert_id st "level" (VInt 0)) by done.
  rewrite (insert_id st "current_exp" (VInt 0)) by done.
  rewrite (insert_id svs) by done.
  rewrite (insert_id doc "servers") by done.
  by rewrite insert_id.
Qed.

Section LedgerSum.

Variable _level_exp : Z → Z.

Lemma servers_exp_insert svs g v v' :
  svs !! g = Some v →
  servers_exp _level_exp (<[g := v']> svs)
  = servers_exp _level_exp svs - guild_exp _level_exp v + guild_exp _level_exp v'.
Proof.
  intros Hg. unfold servers_exp.
  rewrite <- (insert_delete_eq svs g v').
  rewrite map_fold_insert_L; [|intros; lia|apply lookup_delete_eq].
  rewrite (map_fold_delete_L _ 0 g v svs); [lia|intros; lia|done].
Qed.

End LedgerSum.

End Records.

(** ** The bulk reset *)

Section Reset.
Import Leveler.
#[local] Arguments set_fields : simpl never.

Lemma reset_step_refl m w : reset_step m w w.
Proof.
  split; try done. exists []. split; [by rewrite app_nil_r|].
  intros u f Hin. by apply elem_of_nil in Hin.
Qed.

Lemma reset_member_step guild total m current w :
  reset_step m w (reset_member guild total m current w).2.
Proof.
  unfold reset_member.
  destruct (bot m) eqn:Hbot; [apply reset_step_refl|].
  unfold mbind, Eff_bind, db_find_one, find_one, lift. cbn.
  destruct (users w !! str (id m)) as [doc|] eqn:Hdoc; [|apply reset_step_refl].
  cbn.
  destruct (doc !! "total_exp"%string) as [t|]; cbn; [|apply reset_step_refl].
  destruct (default (VDict ∅) (doc !! str guild)) as [| | |st]; cbn;
    try apply reset_step_refl.
  destruct (sub t (default (VInt 0) (st !! "current_exp"%string))) as [t'|e]; cbn;
    [|apply reset_step_refl].
  unfold db_update_one. cbn.
  destruct (update_one (users w) (str (id m)) _) as [us|e] eqn:Hup; cbn.
  - assert (reset_step m w {| users := us;
        log := log w ++ [EvUpdate (str (id m))
          [("servers." +:+ str guild +:+ ".level", VInt 0);
           ("servers." +:+ str guild +:+ ".current_exp", VInt 0);
           ("total_exp"%string, t')]] |}) as Hstep.
    { split; cbn.
      - by eapply update_one_dom.
      - intros k Hk. by eapply update_one_other.
      - eexists. split; [done|]. intros u f [= -> _]%list_elem_of_singleton. done.
      - intros [|Hnone]; congruence. }
    destruct (decide _); cbn; [|done].
    destruct Hstep as [Hd Ho [new [Hl Hn]] Hs]. split; cbn; try done.
    + exists [EvUpdate (str (id m))
          [("servers." +:+ str guild +:+ ".level", VInt 0);
           ("servers." +:+ str guild +:+ ".current_exp", VInt 0);
           ("total_exp"%string, t')];
        EvEdit (main_msg 0 total); EvSleep 5].
      split; [by rewrite <- !app_assoc|].
      intros u f Hin. apply elem_of_cons in Hin as [[= -> _]|Hin]; [done|].
      apply elem_of_cons in Hin as [|Hin]; [done|].
      apply list_elem_of_singleton in Hin. done.
    + intros [|Hnone]; congruence.
  - split; cbn; try done.
    + eexists. split; [done|]. intros u f [= -> _]%list_elem_of_singleton. done.
    + intros [|Hnone]; congruence.
Qed.

Lemma reset_loop_frame guild total members uid : ∀ current w,
  (∀ m, m ∈ members → str (id m) = uid → bot m = true ∨ users w !! uid = None) →
  let w' := (reset_loop guild total members current w).2 in
  dom (users w') = dom (users w) ∧
  users w' !! uid = users w !! uid ∧
  ∃ new, log w' = log w ++ new ∧ ∀ f, EvUpdate uid f ∉ new.
Proof.
  induction members as [|m rest IH]; intros current w Hskip; cbn.
  { repeat split; try done. exists []. split; [by rewrite app_nil_r|].
    intros f Hin. by apply elem_of_nil in Hin. }
  unfold mbind, Eff_bind.
  pose proof (reset_member_step guild total m current w) as Hstep.
  destruct (reset_member guild total m current w) as [[current'|e] w1]; cbn in *.
  - destruct Hstep as [Hd Ho (new1 & Hl1 & Hn1) Hs].
    assert (users w1 !! uid = users w !! uid) as Huid.
    { destruct (decide (uid = str (id m))) as [->|Hne]; [|by apply Ho].
      rewrite Hs; [done|]. apply Hskip; [left|done]. }
    destruct (IH current' w1) as (Hd2 & Hu2 & new2 & Hl2 & Hn2).
    { intros m' Hm' Hid. rewrite Huid. apply Hskip; [by right|done]. }
    split; [congruence|]. split; [congruence|].
    exists (new1 ++ new2). split; [by rewrite Hl2, Hl1, app_assoc|].
    intros f [Hin|Hin]%elem_of_app; [|by eapply Hn2].
    pose proof Hin as Hin'. apply Hn1 in Hin' as ->.
    assert (w1 = w) as ->; [|].
    { apply Hs. apply Hskip; [left|done]. }
    apply (f_equal length) in Hl1. rewrite length_app in Hl1.
    destruct new1; [by apply elem_of_nil in Hin|cbn in Hl1; lia].
  - destruct Hstep as [Hd Ho (new1 & Hl1 & Hn1) Hs].
    split; [done|].
    assert (users w1 !! uid = users w !! uid) as Huid.
    { destruct (decide (uid = str (id m))) as [->|Hne]; [|by apply Ho].
      rewrite Hs; [done|]. apply Hskip; [left|done]. }
    split; [done|]. exists new1. split; [done|].
    intros f Hin. pose proof Hin as Hin'. apply Hn1 in Hin' as ->.
    assert (w1 = w) as ->.
    { apply Hs. apply Hskip; [left|done]. }
    apply (f_equal length) in Hl1. rewrite length_app in Hl1.
    destruct new1; [by apply elem_of_nil in Hin|cbn in Hl1; lia].
Qed.

Lemma reset_member_noop guild total m current w doc t :
  users w !! str (id m) = Some doc →
  ledger_of (users w) (str (id m)) guild = Some (t, 0, 0) →
  doc !! str guild = None →
  users (reset_member guild total m current w).2 = users w.
Proof.
  intros Hdoc0 (doc' & svs & st & Hdoc & Ht & Hs & Hg & Hl & Hc)%ledger_of_Some Hnokey.
  assert (doc' = doc) as -> by congruence.
  unfold reset_member. destruct (bot m); [done|].
  unfold mbind, Eff_bind, db_find_one, find_one, lift. cbn.
  rewrite Hdoc. cbn. rewrite Ht, Hnokey. cbn.
  rewrite lookup_empty. cbn.
  unfold db_update_one, update_one. rewrite Hdoc. cbn.
  rewrite (set_fields_standing doc svs st) by done. cbn.
  rewrite Z.sub_0_r, (with_standing_id doc svs st guild t) by done.
  rewrite insert_id by done.
  by destruct (decide _).
Qed.

(** The reset looks the experience of the guild up at the top of the record.
    A record of the data model has no field named after the guild there, so
    nothing is subtracted and [total_exp] stays. *)
Lemma reset_member_total guild total m current w doc t l c :
  bot m = false →
  users w !! str (id m) = Some doc →
  ledger_of (users w) (str (id m)) guild = Some (t, l, c) →
  doc !! str guild = None →
  (reset_member guild total m current w).1 = Ok (current + 1) ∧
  total_exp_of (users (reset_member guild total m current w).2) (str (id m)) = Some t ∧
  standing_of (users (reset_member guild total m current w).2) (str (id m)) guild
    = Some (0, 0).
Proof.
  intros Hbot Hdoc0 (doc' & svs & st & Hdoc & Ht & Hs & Hg & Hl & Hc)%ledger_of_Some Hnokey.
  assert (doc' = doc) as -> by congruence.
  unfold reset_member. rewrite Hbot.
  unfold mbind, Eff_bind, db_find_one, find_one, lift. cbn.
  rewrite Hdoc. cbn. rewrite Ht, Hnokey. cbn.
  rewrite lookup_empty. cbn.
  unfold db_update_one, update_one. rewrite Hdoc. cbn.
  rewrite (set_fields_standing doc svs st) by done. cbn.
  rewrite Z.sub_0_r.
  assert (total_exp_of (<[str (id m) := with_standing doc svs st guild 0 (VInt t)]> (users w))
            (str (id m)) = Some t) as Htot.
  { apply total_exp_of_insert, with_standing_total. }
  assert (standing_of (<[str (id m) := with_standing doc svs st guild 0 (VInt t)]> (users w))
            (str (id m)) guild = Some (0, 0)) as Hst.
  { unfold standing_of.
    rewrite lookup_insert_eq, with_standing_servers, lookup_insert_eq.
    apply standing_set. }
  by destruct (decide _).
Qed.

Lemma reset_loop_keeps guild total members uid doc t : ∀ current w,
  users w !! uid = Some doc →
  ledger_of (users w) uid guild = Some (t, 0, 0) →
  doc !! str guild = None →
  users (reset_loop guild total members current w).2 !! uid = Some doc.
Proof.
  induction members as [|m rest IH]; intros current w Hdoc Hled Hnokey; cbn; [done|].
  unfold mbind, Eff_bind.
  pose proof (reset_member_step guild total m current w) as Hstep.
  assert (users (reset_member guild total m current w).2 !! uid = users w !! uid) as Hsame.
  { destruct (decide (uid = str (id m))) as [->|Hne].
    - by rewrite (reset_member_noop guild total m current w doc t).
    - by apply Hstep. }
  destruct (reset_member guild total m current w) as [[current'|e] w1]; cbn in *.
  - apply IH; [congruence| |done].
    unfold ledger_of in *. by rewrite Hsame.
  - congruence.
Qed.

Lemma writes_to_app uid l1 l2 :
  writes_to uid (l1 ++ l2) = writes_to uid l1 ++ writes_to uid l2.
Proof.
  induction l1 as [|e l1 IH]; [done|].
  destruct e; cbn; try done. destruct (decide _); cbn; by rewrite IH.
Qed.

Lemma writes_to_none uid l :
  (∀ f, EvUpdate uid f ∉ l) → writes_to uid l = [].
Proof.
  induction l as [|e l IH]; intros Hno; [done|].
  assert (writes_to uid l = []) as Hl.
  { apply IH. intros f Hin. apply (Hno f). by right. }
  destruct e; cbn; try done.
  destruct (decide _) as [->|]; [|done].
  exfalso. eapply Hno. left.
Qed.

Lemma resetranks_keeps guild members uid w doc t :
  users w !! uid = Some doc →
  ledger_of (users w) uid guild = Some (t, 0, 0) →
  doc !! str guild = None →
  users (resetranks guild members w).2 !! uid = Some doc.
Proof.
  intros Hdoc Hled Hnokey.
  unfold resetranks, mbind, Eff_bind, emit. cbn.
  set (w0 := {| users := users w; log := log w ++ [EvSend _] |}).
  pose proof (reset_loop_keeps guild (Z.of_nat (length members)) members uid doc t
                0 w0 Hdoc Hled Hnokey) as Hkeep.
  by destruct (reset_loop _ _ members 0 w0) as [[current|e] w1].
Qed.

(** C7.  The bulk reset skips automated accounts and members without a
    record: for such a member of the guild (whose ids are distinct) the
    record is exactly what it was, absent if it was absent; the log gains no
    write for it; and the store holds the same set of records as before. *)
Theorem resetranks_skips guild members member w :
  member ∈ members →
  NoDup (id <$> members) →
  bot member = true ∨ users w !! str (id member) = None →
  users (resetranks guild members w).2 !! str (id member) = users w !! str (id member) ∧
  writes_to (str (id member)) (log (resetranks guild members w).2)
    = writes_to (str (id member)) (log w) ∧
  dom (users (resetranks guild members w).2) = dom (users w).
Proof.
  intros Hin Hnodup Hskip.
  assert (∀ m, m ∈ members → str (id m) = str (id member) →
            bot m = true ∨ users w !! str (id member) = None) as Hall.
  { intros m Hm Hid%str_inj.
    assert (m = member) as ->; [|done].
    apply list_elem_of_lookup in Hm as [i Hi]. apply list_elem_of_lookup in Hin as [j Hj].
    assert (i = j) as ->; [|congruence].
    eapply NoDup_lookup; [done| |]; rewrite list_lookup_fmap.
    - by rewrite Hi.
    - by rewrite Hj, Hid. }
  unfold resetranks, mbind, Eff_bind, emit. cbn.
  set (w0 := {| users := users w; log := log w ++ [EvSend _] |}).
  pose proof (reset_loop_frame guild (Z.of_nat (length members)) members
                (str (id member)) 0 w0 Hall) as (Hd & Hu & new & Hl & Hn).
  destruct (reset_loop _ _ members 0 w0) as [[current|e] w1]; cbn in *.
  - split; [done|]. split; [|done].
    rewrite Hl, !writes_to_app, (writes_to_none _ new) by done. cbn.
    by rewrite !app_nil_r.
  - split; [done|]. split; [|done].
    rewrite Hl, !writes_to_app, (writes_to_none _ new) by done. cbn.
    by rewrite !app_nil_r.
Qed.

End Reset.

(** ** Setting a level *)

Section SetLevel.
Import Leveler.
#[local] Arguments set_fields : simpl never.

Variable _required_exp : Z → Z.
Variable _level_exp : Z → Z.
Variable _create_user : Member → Z → gmap string document → gmap string document.

Lemma setlevel_run server channel user level w doc svs st t l c :
  bot user = false →
  0 ≤ level →
  _create_user user server (users w) !! str (id user) = Some doc →
  doc !! "total_exp"%string = Some (VInt t) →
  doc !! "servers"%string = Some (VDict svs) →
  svs !! str server = Some (VDict st) →
  st !! "level"%string = Some (VInt l) →
  st !! "current_exp"%string = Some (VInt c) →
  let new_total := t - old_server_exp _required_exp l - c + _level_exp level in
  let userinfo := with_standing doc svs st server level (VInt new_total) in
  setlevel _required_exp _level_exp _create_user server channel user level w =
    (Ok tt,
     {| users := <[str (id user) := userinfo]> (_create_user user server (users w));
        log := log w ++
          [EvUpdate (str (id user)) (setlevel_fields server level new_total);
           EvSend (mention user +:+ "'s Level has been set to `" +:+ str level +:+ "`.");
           EvLevelup user (VDict userinfo) server channel] |}).
Proof.
  intros Hbot Hlevel Hdoc Ht Hs Hg Hl Hc new_total userinfo.
  unfold setlevel. rewrite Hbot.
  unfold mbind, Eff_bind, create_user, db_find_one, find_one, lift; cbn.
  rewrite Hdoc. destruct (decide (level < 0)); [lia|].
  cbn. rewrite Hs. cbn. rewrite Hg. cbn. rewrite Hl, Ht. cbn.
  rewrite lookup_insert_eq, lookup_insert_ne, Hs by done. cbn.
  rewrite Hg. cbn. rewrite Hc. cbn.
  unfold setitem3, mbind, result_bind; cbn.
  rewrite !lookup_insert_ne, Hs by done. cbn. rewrite Hg. cbn.
  rewrite lookup_insert_eq. cbn. rewrite lookup_insert_eq. cbn.
  rewrite lookup_insert_ne, lookup_insert_ne, lookup_insert_eq by done. cbn.
  rewrite lookup_insert_eq. cbn.
  unfold db_update_one, update_one; cbn. rewrite Hdoc.
  rewrite (set_fields_standing doc svs st) by done.
  unfold _handle_levelup, emit; cbn.
  rewrite <- !app_assoc. cbn.
  rewrite !insert_insert_eq.
  rewrite (insert_insert_ne doc) by done. rewrite !insert_insert_eq.
  rewrite (insert_insert_ne st) by done.
  reflexivity.
Qed.

(** Without a readable entry for the guild the command raises before it
    writes anything. *)
Lemma setlevel_needs_entry server channel user level w :
  bot user = false →
  0 ≤ level →
  ledger_of (_create_user user server (users w)) (str (id user)) server = None →
  ∃ e, setlevel _required_exp _level_exp _create_user server channel user level w
       = (Raise e, {| users := _create_user user server (users w); log := log w |}).
Proof.
  intros Hbot Hlevel Hnone. unfold setlevel. rewrite Hbot.
  unfold mbind, Eff_bind, create_user, db_find_one, find_one, lift; cbn.
  destruct (decide (level < 0)); [lia|].
  unfold ledger_of, standing in Hnone.
  destruct (_create_user user server (users w) !! str (id user)) as [doc|];
    cbn; [|eauto].
  destruct (doc !! "servers"%string) as [[| | |svs]|] eqn:Hs; cbn; eauto.
  destruct (svs !! str server) as [[| | |st]|] eqn:Hg; cbn; eauto.
  destruct (st !! "level"%string) as [[|l| |]|] eqn:Hl; cbn; eauto.
  destruct (doc !! "total_exp"%string) as [[|t| |]|] eqn:Ht; cbn; eauto.
  rewrite lookup_insert_eq, lookup_insert_ne, Hs by done. cbn.
  rewrite Hg. cbn.
  destruct (st !! "current_exp"%string) as [[|c| |]|] eqn:Hc; cbn; eauto.
  discriminate Hnone.
Qed.

(** C2.  For a member whose record, as [setlevel] reads it, has [total_exp = t]
    and level [l] with experience [c] in the guild, and a target level that
    is not negative, the command completes and the stored [total_exp] is
    [t - old_server_exp l - c + _level_exp level], where [old_server_exp l]
    sums [_required_exp i] over [0 <= i < l].  With [t = 500], [l = 2],
    [c = 30], [_required_exp 0 = 100], [_required_exp 1 = 150] and
    [_level_exp 4 = 600], setting level 4 stores 820. *)
Theorem setlevel_total_exp server channel user level w t l c :
  bot user = false →
  0 ≤ level →
  ledger_of (_create_user user server (users w)) (str (id user)) server = Some (t, l, c) →
  (setlevel _required_exp _level_exp _create_user server channel user level w).1 = Ok tt ∧
  total_exp_of
    (users (setlevel _required_exp _level_exp _create_user server channel user level w).2)
    (str (id user))
    = Some (t - old_server_exp _required_exp l - c + _level_exp level) ∧
  (t = 500 → l = 2 → c = 30 → level = 4 →
   _required_exp 0 = 100 → _required_exp 1 = 150 → _level_exp 4 = 600 →
   total_exp_of
     (users (setlevel _required_exp _level_exp _create_user server channel user level w).2)
     (str (id user))
     = Some 820).
Proof.
  intros Hbot Hlevel (doc & svs & st & Hdoc & Ht & Hs & Hg & Hl & Hc)%ledger_of_Some.
  rewrite (setlevel_run server channel user level w doc svs st t l c) by done.
  cbn [fst snd users].
  assert (total_exp_of
    (<[str (id user) := with_standing doc svs st server level
         (VInt (t - old_server_exp _required_exp l - c + _level_exp level))]>
       (_create_user user server (users w))) (str (id user))
    = Some (t - old_server_exp _required_exp l - c + _level_exp level)) as Htot.
  { apply total_exp_of_insert, with_standing_total. }
  split; [done|]. split; [done|].
  intros -> -> -> -> H0 H1 H4. rewrite Htot. f_equal.
  unfold old_server_exp. change (seqZ 0 2) with [0; 1]. cbn. rewrite H0, H1, H4. done.
Qed.

(** C3.  For a target level that is not negative and a member that is not an
    automated account and has a record with an entry for the guild, the
    command completes and the stored entry has the target level and
    experience 0. *)
Theorem setlevel_sets_standing server channel user level w t l c :
  bot user = false →
  0 ≤ level →
  ledger_of (_create_user user server (users w)) (str (id user)) server = Some (t, l, c) →
  (setlevel _required_exp _level_exp _create_user server channel user level w).1 = Ok tt ∧
  standing_of
    (users (setlevel _required_exp _level_exp _create_user server channel user level w).2)
    (str (id user)) server
    = Some (level, 0).
Proof.
  intros Hbot Hlevel (doc & svs & st & Hdoc & Ht & Hs & Hg & Hl & Hc)%ledger_of_Some.
  rewrite (setlevel_run server channel user level w doc svs st t l c) by done.
  cbn [fst snd users]. split; [done|].
  unfold standing_of. rewrite lookup_insert_eq, with_standing_servers, lookup_insert_eq.
  apply standing_set.
Qed.

(** C5, as amended.  For a negative target level and a member that is not an
    automated account, the command answers "Please enter a positive number."
    and issues no write: the store is what [_create_user], which runs before
    the level is checked, has left.  When that step changes nothing, the
    stored records are unchanged. *)
Theorem setlevel_negative server channel user level w :
  bot user = false →
  level < 0 →
  setlevel _required_exp _level_exp _create_user server channel user level w
    = (Ok tt, {| users := _create_user user server (users w);
                 log := log w ++ [EvSend "Please enter a positive number."] |}) ∧
  (_create_user user server (users w) = users w →
   users (setlevel _required_exp _level_exp _create_user server channel user level w).2
     = users w).
Proof.
  intros Hbot Hlevel.
  assert (setlevel _required_exp _level_exp _create_user server channel user level w
    = (Ok tt, {| users := _create_user user server (users w);
                 log := log w ++ [EvSend "Please enter a positive number."] |})) as Hrun.
  { unfold setlevel. rewrite Hbot.
    unfold mbind, Eff_bind, create_user, db_find_one. cbn.
    destruct (decide (level < 0)); [done|lia]. }
  split; [done|]. intros Hsame. by rewrite Hrun.
Qed.

(** The loop of [setlevel] over [range(level)] adds up the cumulative
    experience of the spec. *)
Lemma old_server_exp_cumulative level :
  0 ≤ level →
  cumulative _required_exp _level_exp level →
  old_server_exp _required_exp level = _level_exp level.
Proof.
  intros Hlevel [Hzero Hstep].
  assert (∀ n : nat, Z.of_nat n ≤ level →
            old_server_exp _required_exp (Z.of_nat n) = _level_exp (Z.of_nat n)) as Hall.
  { induction n as [|n IH]; intros Hn.
    - change (Z.of_nat 0) with 0. unfold old_server_exp.
      rewrite seqZ_nil by done. cbn. by rewrite Hzero.
    - unfold old_server_exp in *. rewrite seqZ_S, foldl_app. cbn [foldl].
      rewrite IH by lia. rewrite Z.add_0_l, Nat2Z.inj_succ, <- Z.add_1_r.
      by rewrite Hstep by lia. }
  rewrite <- (Z2Nat.id level) by lia. apply Hall. lia.
Qed.

(** C6.  Setting the same level twice stores what setting it once stores:
    when [_level_exp] is the cumulative experience of [_required_exp] up to
    the target level ([_level_exp 0 = 0] and [_level_exp (n + 1) =
    _level_exp n + _required_exp n] below it) and the second run's
    [_create_user] finds the record and leaves it alone, both runs complete
    and the second leaves the store as the first left it. *)
Theorem setlevel_idempotent server channel user level w t l c :
  bot user = false →
  0 ≤ level →
  ledger_of (_create_user user server (users w)) (str (id user)) server = Some (t, l, c) →
  cumulative _required_exp _level_exp level →
  _create_user user server
    (users (setlevel _required_exp _level_exp _create_user server channel user level w).2)
    = users (setlevel _required_exp _level_exp _create_user server channel user level w).2 →
  (setlevel _required_exp _level_exp _create_user server channel user level w).1 = Ok tt ∧
  (setlevel _required_exp _level_exp _create_user server channel user level
     (setlevel _required_exp _level_exp _create_user server channel user level w).2).1
    = Ok tt ∧
  users
    (setlevel _required_exp _level_exp _create_user server channel user level
       (setlevel _required_exp _level_exp _create_user server channel user level w).2).2
    = users (setlevel _required_exp _level_exp _create_user server channel user level w).2.
Proof.
  intros Hbot Hlevel (doc & svs & st & Hdoc & Ht & Hs & Hg & Hl & Hc)%ledger_of_Some Hcum.
  apply (old_server_exp_cumulative level Hlevel) in Hcum. symmetry in Hcum.
  rewrite (setlevel_run server channel user level w doc svs st t l c) by done.
  cbn [fst snd users]. intros Hstable.
  set (t1 := t - old_server_exp _required_exp l - c + _level_exp level) in *.
  set (st1 := <["current_exp"%string := VInt 0]> (<["level"%string := VInt level]> st)).
  set (svs1 := <[str server := VDict st1]> svs).
  set (doc1 := with_standing doc svs st server level (VInt t1)) in *.
  set (w1 := {| users := <[str (id user) := doc1]> (_create_user user server (users w));
                log := _ |}).
  rewrite (setlevel_run server channel user level w1 doc1 svs1 st1 t1 level 0);
    try done.
  - cbn [fst snd users]. split; [done|]. split; [done|].
    subst w1. cbn [users]. rewrite Hstable.
    replace (t1 - old_server_exp _required_exp level - 0 + _level_exp level) with t1 by lia.
    rewrite insert_insert_eq. f_equal.
    unfold doc1 at 2. unfold with_standing. fold st1. fold svs1.
    unfold with_standing. subst svs1 st1 doc1. unfold with_standing.
    rewrite (insert_insert_eq svs).
    rewrite (insert_insert_ne st "current_exp" "level") by done.
    rewrite (insert_insert_eq (<["current_exp"%string := VInt 0]> st)).
    rewrite (insert_insert_ne _ "current_exp" "level") by done.
    rewrite (insert_insert_eq st).
    rewrite (insert_insert_ne (<["servers"%string := _]> doc) "servers" "total_exp") by done.
    rewrite (insert_insert_eq doc).
    rewrite (insert_insert_ne _ "level" "current_exp") by done.
    apply (insert_insert_eq (<["servers"%string := _]> doc)).
  - subst w1. cbn [users]. rewrite Hstable. apply lookup_insert_eq.
  - apply with_standing_total.
  - apply with_standing_servers.
  - apply lookup_insert_eq.
  - unfold st1. rewrite lookup_insert_ne by done. apply lookup_insert_eq.
  - apply lookup_insert_eq.
Qed.

(** C1, as amended.  Setting a level keeps the ledger of a record: if
    [total_exp] is the sum over the guilds of [_level_exp level + current_exp]
    before, and [_level_exp] is the cumulative sum of [_required_exp] at the
    guild's previous level, it is so after.  The bulk reset keeps the record
    of a member that is already at level 0 with experience 0 in the guild as
    it is, hence its ledger too. *)
Theorem ledger_invariant_preserved :
  (∀ server channel user level w doc t l c,
     bot user = false →
     0 ≤ level →
     _create_user user server (users w) !! str (id user) = Some doc →
     ledger_invariant _level_exp doc →
     ledger_of (_create_user user server (users w)) (str (id user)) server = Some (t, l, c) →
     _level_exp l = old_server_exp _required_exp l →
     (setlevel _required_exp _level_exp _create_user server channel user level w).1 = Ok tt ∧
     ∃ doc',
       users (setlevel _required_exp _level_exp _create_user server channel user level w).2
         !! str (id user) = Some doc'
       ∧ ledger_invariant _level_exp doc')
  ∧
  (∀ guild members (member : Member) w doc t,
     users w !! str (id member) = Some doc →
     ledger_invariant _level_exp doc →
     ledger_of (users w) (str (id member)) guild = Some (t, 0, 0) →
     doc !! str guild = None →
     ∃ doc', users (resetranks guild members w).2 !! str (id member) = Some doc'
             ∧ ledger_invariant _level_exp doc').
Proof.
  split.
  - intros server channel user level w doc0 t l c Hbot Hlevel Hdoc0 Hinv
      (doc & svs & st & Hdoc & Ht & Hs & Hg & Hl & Hc)%ledger_of_Some Hcum.
    assert (doc0 = doc) as -> by congruence.
    rewrite (setlevel_run server channel user level w doc svs st t l c) by done.
    cbn [fst snd users]. split; [done|].
    eexists. split; [apply lookup_insert_eq|].
    unfold ledger_invariant in *.
    rewrite with_standing_total, with_standing_servers.
    rewrite Ht, Hs in Hinv. destruct Hinv as [Hall Hsum].
    split.
    + apply map_Forall_insert_2; [|done]. rewrite standing_set. eauto.
    + rewrite (servers_exp_insert _ svs (str server) (VDict st)) by done.
      unfold guild_exp at 1 2. rewrite standing_set.
      assert (standing (VDict st) = Some (l, c)) as ->.
      { cbn. by rewrite Hl, Hc. }
      lia.
  - intros guild members member w doc t Hdoc Hinv Hled Hnokey.
    exists doc. split; [|done].
    by apply (resetranks_keeps guild members (str (id member)) w doc t).
Qed.

End SetLevel.

(** ** The experience ban *)

Section XpBanFacts.
Import Leveler.

Variable float : Type.
Variable float_add : float → float → float.
Variable time_time : float.
Variable exc_text : exn → string.


End XpBanFacts.

(** ** The pagination view *)

Section ViewFacts.
Import Menus.
Context {Page : Type}.
Implicit Types v : BaseView Page.

Lemma get_kwargs_state (page : Page) v : (_get_kwargs_from_page page v).2 = v.
Proof.
  unfold _get_kwargs_from_page, mbind, Eff_bind, view, lift. cbn.
  by destruct (format_page (_source v) (current_page v) page) as [[]|].
Qed.

Ltac case_kwargs :=
  match goal with
  | |- context [_get_kwargs_from_page ?p ?s] =>
      let H := fresh in
      pose proof (get_kwargs_state p s) as H;
      destruct (_get_kwargs_from_page p s) as [[[?|]|?] ?];
      cbn in H; subst
  end.

(** [show_page] moves the view to the page it could fetch. *)
Lemma show_page_fetched v n options page :
  select_options (_source v) = Some options →
  get_page (_source v) n = Ok page →
  current_page (show_page n v).2 = n ∧ _source (show_page n v).2 = _source v.
Proof.
  intros Hopt Hpage. unfold show_page, mbind, Eff_bind, view, lift. cbn.
  destruct (is_paginating (_source v)) eqn:Hpag; cbn; rewrite Hopt; cbn.
  - destruct (bool_decide _); cbn; rewrite Hpage; cbn; case_kwargs; done.
  - rewrite andb_false_r. cbn. rewrite Hpage. cbn. case_kwargs; done.
Qed.

(** A fetch that raises leaves the page where it was. *)
Lemma show_page_failed v n options e :
  select_options (_source v) = Some options →
  get_page (_source v) n = Raise e →
  (show_page n v).1 = Raise e ∧ current_page (show_page n v).2 = current_page v.
Proof.
  intros Hopt Hpage. unfold show_page, mbind, Eff_bind, view, lift. cbn.
  destruct (is_paginating (_source v)) eqn:Hpag; cbn; rewrite Hopt; cbn.
  - destruct (bool_decide _); cbn; rewrite Hpage; done.
  - rewrite andb_false_r. cbn. rewrite Hpage. done.
Qed.

(** Without the attribute [select_options], [show_page] raises before it
    fetches the page. *)
Lemma show_page_no_options v n :
  select_options (_source v) = None →
  (show_page n v).1 = Raise AttributeError ∧
  current_page (show_page n v).2 = current_page v ∧
  edits (show_page n v).2 = edits v.
Proof.
  intros Hopt. unfold show_page, mbind, Eff_bind, view, lift. cbn.
  destruct (is_paginating (_source v)); cbn; by rewrite Hopt.
Qed.

Lemma show_checked_page_no_options v page_number :
  select_options (_source v) = None →
  (show_checked_page page_number v).1 = Raise AttributeError ∧
  current_page (show_checked_page page_number v).2 = current_page v.
Proof.
  intros Hopt.
  assert (∀ n, (ignoring_IndexError (show_page n) v).1 = Raise AttributeError ∧
               current_page (ignoring_IndexError (show_page n) v).2 = current_page v)
    as Hshow.
  { intros n. destruct (show_page_no_options v n Hopt) as (Hr & Hcur & _).
    unfold ignoring_IndexError.
    destruct (show_page n v) as [r v1]. cbn in *. by subst r. }
  unfold show_checked_page, mbind, Eff_bind, view. cbn.
  destruct (get_max_pages (_source v)) as [max_pages|]; [|apply Hshow].
  destruct (decide (page_number >= max_pages)); [apply Hshow|].
  destruct (decide (page_number < 0)); [apply Hshow|].
  destruct (decide _) as [|Hno]; [apply Hshow|]. exfalso. apply Hno. lia.
Qed.

Lemma show_checked_page_known v page_number max_pages :
  get_max_pages (_source v) = Some max_pages →
  show_checked_page page_number v
  = ignoring_IndexError (show_page (checked_page max_pages page_number)) v.
Proof.
  intros Hmax. unfold show_checked_page, mbind, Eff_bind, view. cbn.
  rewrite Hmax. unfold checked_page.
  destruct (decide (page_number >= max_pages)); [done|].
  destruct (decide (page_number < 0)); [done|].
  destruct (decide _) as [|Hno]; [done|]. exfalso. apply Hno. lia.
Qed.

Lemma checked_page_range max_pages page_number :
  0 < max_pages → 0 ≤ checked_page max_pages page_number < max_pages.
Proof.
  intros Hpos. unfold checked_page.
  destruct (decide (page_number >= max_pages)); [lia|].
  destruct (decide (page_number < 0)); lia.
Qed.

(** C9, as amended.  For a view whose source reports [max_pages > 0] pages,
    [show_checked_page] asks for a page in [0, max_pages): page 0 for a
    request past the last page, page [max_pages - 1] for a request below 0,
    the requested page otherwise.  On a source that has the attribute
    [select_options]: when the source delivers that page it becomes the
    current page; when the fetch raises [IndexError] the error is dropped,
    and when it raises another error that error is raised; in both cases the
    current page stays what it was.  On a source without the attribute
    [AttributeError] is raised before the page is fetched and the current
    page stays what it was. *)
Theorem show_checked_page_wraps v page_number max_pages :
  get_max_pages (_source v) = Some max_pages →
  0 < max_pages →
  let target := checked_page max_pages page_number in
  let v' := (show_checked_page page_number v).2 in
  0 ≤ target < max_pages ∧
  (page_number >= max_pages → target = 0) ∧
  (page_number < 0 → target = max_pages - 1) ∧
  (0 ≤ page_number < max_pages → target = page_number) ∧
  (is_Some (select_options (_source v)) →
     (∀ page, get_page (_source v) target = Ok page → current_page v' = target) ∧
     (get_page (_source v) target = Raise IndexError →
      (show_checked_page page_number v).1 = Ok tt ∧ current_page v' = current_page v) ∧
     (∀ e, e ≠ IndexError → get_page (_source v) target = Raise e →
      (show_checked_page page_number v).1 = Raise e ∧ current_page v' = current_page v)) ∧
  (select_options (_source v) = None →
     (show_checked_page page_number v).1 = Raise AttributeError ∧
     current_page v' = current_page v).
Proof.
  intros Hmax Hpos target v'.
  split; [by apply checked_page_range|].
  split; [intros; unfold target, checked_page; by destruct (decide _)|].
  split.
  { intros. unfold target, checked_page.
    destruct (decide (page_number >= max_pages)); [lia|].
    destruct (decide (page_number < 0)); [done|lia]. }
  split.
  { intros. unfold target, checked_page.
    destruct (decide (page_number >= max_pages)); [lia|].
    destruct (decide (page_number < 0)); [lia|done]. }
  split; [|by apply show_checked_page_no_options].
  intros [options Hopt].
  subst v'. rewrite (show_checked_page_known v page_number max_pages) by done.
  fold target. unfold ignoring_IndexError. split; [|split].
  - intros page Hpage.
    destruct (show_page_fetched v target options page Hopt Hpage) as [Hcur _].
    destruct (show_page target v) as [[[]|[]] v1]; done.
  - intros Hpage.
    destruct (show_page_failed v target options IndexError Hopt Hpage) as [Hr Hcur].
    destruct (show_page target v) as [r v1]. cbn in *. by subst r.
  - intros e He Hpage.
    destruct (show_page_failed v target options e Hopt Hpage) as [Hr Hcur].
    destruct (show_page target v) as [r v1]. cbn in *. subst r. by destruct e.
Qed.

End ViewFacts.

(** ** Number formatting *)

Section HumanizeFacts.
Import ImgenUtils.

Variable log_floor : Z → Z.
Variable format_0f : Z → Z → string.

Lemma humanize_big number :
  number ≠ 0 → 6 ≤ log_floor (Z.abs number) → _humanize_number log_floor format_0f number = Ok (VStr ">999Q").
Proof.
  intros Hnz Hbig. unfold _humanize_number.
  destruct (decide (number = 0)); [done|].
  assert ((if decide (number < 0) then number * -1 else number) = Z.abs number) as ->.
  { destruct (decide (number < 0)); lia. }
  destruct (decide (log_floor (Z.abs number) >= Z.of_nat (length units))) as [|Hno];
    [done|]. cbn in Hno. lia.
Qed.

Lemma humanize_small number :
  number ≠ 0 → 0 ≤ log_floor (Z.abs number) < 6 →
  ∃ unit, _humanize_number log_floor format_0f number
    = Ok (VStr ((if decide (number < 0) then "-" else "")
                +:+ format_0f (Z.abs number) (log_floor (Z.abs number)) +:+ unit)).
Proof.
  intros Hnz Hsmall. unfold _humanize_number.
  destruct (decide (number = 0)); [done|].
  assert ((if decide (number < 0) then number * -1 else number) = Z.abs number) as ->.
  { destruct (decide (number < 0)); lia. }
  destruct (decide (log_floor (Z.abs number) >= Z.of_nat (length units))) as [Hge|_].
  { cbn in Hge. lia. }
  unfold list_getitem. cbn [length units].
  destruct (decide (log_floor (Z.abs number) < 0)); [lia|].
  destruct (decide (0 ≤ log_floor (Z.abs number) < Z.of_nat 6)) as [_|Hno]; [|lia].
  destruct (units !! Z.to_nat (log_floor (Z.abs number))) as [u|] eqn:Hu.
  - by exists u.
  - apply lookup_ge_None in Hu. cbn in Hu. lia.
Qed.

(** C10, as amended.  With a logarithm that is not negative on positive
    integers and at least 6 from [1000^6] on: the result is the integer 0
    for 0; a string for every other number; the fixed string ">999Q" when
    the magnitude is at least [1000^6], whatever the sign; and a string that
    begins with "-" for a negative number below that size. *)
Theorem humanize_number_cases number :
  (∀ m, 1 ≤ m → 0 ≤ log_floor m) →
  (∀ m, 1000 ^ 6 ≤ m → 6 ≤ log_floor m) →
  (number = 0 → _humanize_number log_floor format_0f number = Ok (VInt 0)) ∧
  (number ≠ 0 → ∃ s, _humanize_number log_floor format_0f number = Ok (VStr s)) ∧
  (1000 ^ 6 ≤ Z.abs number → _humanize_number log_floor format_0f number = Ok (VStr ">999Q")) ∧
  (number < 0 → log_floor (Z.abs number) < 6 →
   ∃ s, _humanize_number log_floor format_0f number = Ok (VStr ("-" +:+ s))).
Proof.
  intros Hnonneg Hbig.
  split; [intros ->; done|].
  split.
  { intros Hnz.
    destruct (decide (6 ≤ log_floor (Z.abs number))).
    - eexists. by apply humanize_big.
    - destruct (humanize_small number) as [u Hu]; [done| |eauto].
      split; [apply Hnonneg|]; lia. }
  split.
  { intros Habs. apply humanize_big; [lia|]. by apply Hbig. }
  intros Hneg Hsmall.
  destruct (humanize_small number) as [u Hu]; [lia| |].
  { split; [apply Hnonneg|]; lia. }
  rewrite Hu. destruct (decide (number < 0)); [|lia]. eauto.
Qed.

End HumanizeFacts.

(** ** Worked examples *)

Section LevelerExamples.
Import Leveler.

Abbreviation example_setlevel :=
  (setlevel example_required_exp example_level_exp ensure_user_exists 1000 5).

(** The worked example of C2: 500 - (100 + 150) - 30 + 600 = 820. *)
Lemma setlevel_total_exp_witness :
  total_exp_of (users (example_setlevel alice 4 (example_world 500 2 30)).2) "42" = Some 820.
Proof.
  apply (setlevel_total_exp example_required_exp example_level_exp ensure_user_exists
           1000 5 alice 4 (example_world 500 2 30) 500 2 30);
    solve [reflexivity | lia].
Defined.

Lemma setlevel_sets_standing_witness :
  (example_setlevel alice 4 (example_world 500 2 30)).1 = Ok tt ∧
  standing_of (users (example_setlevel alice 4 (example_world 500 2 30)).2) "42" 1000
    = Some (4, 0).
Proof.
  apply (setlevel_sets_standing example_required_exp example_level_exp ensure_user_exists
           1000 5 alice 4 (example_world 500 2 30) 500 2 30);
    solve [reflexivity | lia].
Defined.

Lemma setlevel_negative_witness :
  example_setlevel alice (-3) (example_world 500 2 30)
  = (Ok tt, {| users := users (example_world 500 2 30);
               log := [EvSend "Please enter a positive number."] |}).
Proof.
  apply (setlevel_negative example_required_exp example_level_exp ensure_user_exists
           1000 5 alice (-3) (example_world 500 2 30)); solve [reflexivity | lia].
Defined.

(** C5 as stated fails: a negative level for a member without a record
    leaves a record behind. *)
Lemma negative_level_creates_record :
  users {| users := ∅; log := [] |} !! "42"%string = None ∧
  (example_setlevel alice (-1) {| users := ∅; log := [] |}).1 = Ok tt ∧
  total_exp_of (users (example_setlevel alice (-1) {| users := ∅; log := [] |}).2) "42"
    = Some 0.
Proof. vm_compute. repeat split; reflexivity. Qed.

Lemma setlevel_idempotent_witness :
  users
    (setlevel example_required_exp table_level_exp ensure_user_exists 1000 5 alice 4
       (setlevel example_required_exp table_level_exp ensure_user_exists 1000 5 alice 4
          (example_world 500 2 30)).2).2
  = users
      (setlevel example_required_exp table_level_exp ensure_user_exists 1000 5 alice 4
         (example_world 500 2 30)).2
  ∧ total_exp_of
      (users
         (setlevel example_required_exp table_level_exp ensure_user_exists 1000 5 alice 4
            (setlevel example_required_exp table_level_exp ensure_user_exists 1000 5 alice 4
               (example_world 500 2 30)).2).2) "42" = Some 820.
Proof.
  assert (cumulative example_required_exp table_level_exp 4) as Hcum.
  { split; [reflexivity|]. intros n Hn.
    assert (n = 0 ∨ n = 1 ∨ n = 2 ∨ n = 3) as [->|[->|[->| ->]]] by lia; reflexivity. }
  split; [|vm_compute; reflexivity].
  apply (setlevel_idempotent example_required_exp table_level_exp ensure_user_exists
           1000 5 alice 4 (example_world 500 2 30) 500 2 30);
    solve [reflexivity | lia | exact Hcum].
Defined.

Lemma ledger_invariant_preserved_witness :
  ((example_setlevel alice 4 (example_world 280 2 30)).1 = Ok tt ∧
   ∃ doc', users (example_setlevel alice 4 (example_world 280 2 30)).2 !! "42"%string
           = Some doc' ∧ ledger_invariant example_level_exp doc') ∧
  (∃ doc', users (resetranks 1000 [robot; alice; carol] (example_world 0 0 0)).2
             !! "42"%string = Some doc' ∧ ledger_invariant example_level_exp doc').
Proof.
  split.
  - apply (proj1 (ledger_invariant_preserved example_required_exp example_level_exp
                    ensure_user_exists)
             1000 5 alice 4 (example_world 280 2 30) (example_record 280 2 30) 280 2 30);
      try solve [reflexivity | lia].
    refine (bool_decide_unpack _ _). vm_compute. reflexivity.
  - apply (proj2 (ledger_invariant_preserved example_required_exp example_level_exp
                    ensure_user_exists)
             1000 [robot; alice; carol] alice (example_world 0 0 0) (example_record 0 0 0) 0);
      try solve [reflexivity | lia].
    refine (bool_decide_unpack _ _). vm_compute. reflexivity.
Defined.

(** C1 as stated fails: the bulk reset leaves the experience of the levels
    in [total_exp] while it puts the level back to 0. *)
Lemma resetranks_breaks_ledger_invariant :
  invariant_at example_level_exp (users (example_world 250 2 0)) "42" = true ∧
  invariant_at example_level_exp
    (users (resetranks 1000 [alice] (example_world 250 2 0)).2) "42" = false.
Proof. vm_compute. split; reflexivity. Qed.

(** C4.  The bulk reset of a member at level 1 with experience 30 and
    [total_exp = 130] stores level 0, experience 0 and [total_exp = 130]:
    the experience of the guild is looked up at the top of the record, where
    it is not, so nothing is subtracted. *)
Lemma bulk_reset_subtracts_nothing :
  (resetranks 1000 [alice] (example_world 130 1 30)).1 = Ok tt ∧
  total_exp_of (users (resetranks 1000 [alice] (example_world 130 1 30)).2) "42"
    = Some 130 ∧
  standing_of (users (resetranks 1000 [alice] (example_world 130 1 30)).2) "42" 1000
    = Some (0, 0).
Proof. vm_compute. repeat split; reflexivity. Qed.

Lemma resetranks_skips_witness :
  users (resetranks 1000 [robot; alice; carol] (example_world 130 1 30)).2 !! "99"%string
    = None ∧
  writes_to "99" (log (resetranks 1000 [robot; alice; carol] (example_world 130 1 30)).2)
    = [] ∧
  dom (users (resetranks 1000 [robot; alice; carol] (example_world 130 1 30)).2)
    = dom (users (example_world 130 1 30)).
Proof.
  apply (resetranks_skips 1000 [robot; alice; carol] carol (example_world 130 1 30)).
  - right. right. left.
  - refine (bool_decide_unpack _ _). vm_compute. reflexivity.
  - right. reflexivity.
Defined.


(** With a record, the ban of 60 seconds at time 1000 ends at 1060. *)
Example xpban_example :
  chat_blocks (example_xpban 60 (BanUser alice) ban_world).2 !! "42"%string = Some 1060 ∧
  chat_blocks (example_xpban 60 (BanId 42) ban_world).2 !! "42"%string = Some 1060 ∧
  ban_log (example_xpban 60 (BanId 99) ban_world).2
  = [BanSend "Discord user with ID `99` not found."].
Proof. vm_compute. repeat split; reflexivity. Qed.

End LevelerExamples.

Section ViewExamples.
Import Menus.

Lemma show_checked_page_wraps_witness :
  current_page (show_checked_page 3 (BaseView_init (list_source ["a"; "b"; "c"]) 2)).2 = 0
  ∧ current_page (show_checked_page (-1) (BaseView_init (list_source ["a"; "b"; "c"]) 0)).2
    = 2
  ∧ (show_checked_page 1 (BaseView_init bare_source 0)).1 = Raise AttributeError
  ∧ current_page (show_checked_page 1 (BaseView_init bare_source 0)).2 = 0.
Proof.
  pose proof (show_checked_page_wraps (BaseView_init (list_source ["a"; "b"; "c"]) 2) 3 3
                eq_refl ltac:(lia)) as (_ & _ & _ & _ & Hforward & _).
  pose proof (show_checked_page_wraps (BaseView_init (list_source ["a"; "b"; "c"]) 0) (-1) 3
                eq_refl ltac:(lia)) as (_ & _ & _ & _ & Hback & _).
  pose proof (show_checked_page_wraps (BaseView_init bare_source 0) 1 3
                eq_refl ltac:(lia)) as (_ & _ & _ & _ & _ & Hbare).
  split; [|split].
  - apply (proj1 (Hforward ltac:(eexists; reflexivity)) "a"%string). reflexivity.
  - apply (proj1 (Hback ltac:(eexists; reflexivity)) "c"%string). reflexivity.
  - apply Hbare. reflexivity.
Defined.

(** The forward button on the last page leads to the first, the back button
    on the first page to the last. *)
Example buttons_wrap_around :
  current_page (ForwardButton_callback (BaseView_init (list_source ["a"; "b"; "c"]) 2)).2 = 0
  ∧ current_page (BackButton_callback (BaseView_init (list_source ["a"; "b"; "c"]) 0)).2 = 2
  ∧ current_page (ForwardButton_callback (BaseView_init (list_source ["a"; "b"; "c"]) 0)).2
    = 1.
Proof. vm_compute. repeat split; reflexivity. Qed.

(** C9 as stated fails: a view that starts on page 5 of a source that
    reports three pages and raises [IndexError] stays on page 5. *)
Lemma show_checked_page_keeps_stale_page :
  get_max_pages (_source (BaseView_init stale_source 5)) = Some 3 ∧
  (show_checked_page 6 (BaseView_init stale_source 5)).1 = Ok tt ∧
  current_page (show_checked_page 6 (BaseView_init stale_source 5)).2 = 5.
Proof. vm_compute. repeat split; reflexivity. Qed.

End ViewExamples.

Section HumanizeExamples.
Import ImgenUtils.

Lemma ilog1000_aux_nonneg fuel : ∀ n, 0 ≤ ilog1000_aux fuel n.
Proof.
  induction fuel as [|fuel IH]; intros n; cbn; [done|].
  destruct (decide (n < 1000)); [done|]. specialize (IH (n `div` 1000)). lia.
Qed.

Lemma ilog1000_aux_ge (k : nat) : ∀ fuel n,
  (k ≤ fuel)%nat → 1000 ^ Z.of_nat k ≤ n → Z.of_nat k ≤ ilog1000_aux fuel n.
Proof.
  induction k as [|k IH]; intros fuel n Hfuel Hn.
  { apply ilog1000_aux_nonneg. }
  destruct fuel as [|fuel]; [lia|]. cbn [ilog1000_aux].
  rewrite Nat2Z.inj_succ, Z.pow_succ_r in Hn by lia.
  assert (0 < 1000 ^ Z.of_nat k) by (apply Z.pow_pos_nonneg; lia).
  destruct (decide (n < 1000)); [lia|].
  specialize (IH fuel (n `div` 1000)).
  assert (1000 ^ Z.of_nat k ≤ n `div` 1000).
  { apply Z.div_le_lower_bound; lia. }
  lia.
Qed.

Lemma ilog1000_nonneg m : 1 ≤ m → 0 ≤ ilog1000 m.
Proof. intros _. apply ilog1000_aux_nonneg. Qed.

Lemma ilog1000_big m : 1000 ^ 6 ≤ m → 6 ≤ ilog1000 m.
Proof.
  intros Hm. unfold ilog1000.
  apply (ilog1000_aux_ge 6); [|done].
  assert (Z.log2 (1000 ^ 6) ≤ Z.log2 m) as Hlog by (apply Z.log2_le_mono; lia).
  change (Z.log2 (1000 ^ 6)) with 59 in Hlog. lia.
Qed.

Lemma humanize_number_cases_witness :
  (∃ s, _humanize_number ilog1000 exact_0f (-1500) = Ok (VStr s)) ∧
  _humanize_number ilog1000 exact_0f (1000 ^ 6) = Ok (VStr ">999Q") ∧
  (∃ s, _humanize_number ilog1000 exact_0f (-1500) = Ok (VStr ("-" +:+ s))).
Proof.
  pose proof (humanize_number_cases ilog1000 exact_0f (-1500) ilog1000_nonneg ilog1000_big)
    as (_ & Hstr & _ & Hneg).
  pose proof (humanize_number_cases ilog1000 exact_0f (1000 ^ 6) ilog1000_nonneg ilog1000_big)
    as (_ & _ & Hbig & _).
  split; [apply Hstr; lia|]. split; [apply Hbig; vm_compute; discriminate|].
  apply Hneg; [lia|vm_compute; reflexivity].
Defined.

(** C10 as stated fails: a negative number of magnitude [1000^6] gives
    ">999Q", which does not begin with "-". *)
Lemma humanize_number_drops_sign :
  _humanize_number ilog1000 exact_0f (- 1000 ^ 6) = Ok (VStr ">999Q") ∧
  String.prefix "-" ">999Q" = false.
Proof. vm_compute. split; reflexivity. Qed.

Example humanize_examples :
  _humanize_number ilog1000 exact_0f 0 = Ok (VInt 0) ∧
  _humanize_number ilog1000 exact_0f 999 = Ok (VStr "999") ∧
  _humanize_number ilog1000 exact_0f 1500 = Ok (VStr "2K") ∧
  _humanize_number ilog1000 exact_0f 2500 = Ok (VStr "2K") ∧
  _humanize_number ilog1000 exact_0f (-1234567) = Ok (VStr "-1M").
Proof. vm_compute. repeat split; reflexivity. Qed.

End HumanizeExamples.

(** * Further properties of the code *)

(** ** Setting a level *)

Section LogCounts.
Import Leveler.

Lemma writes_app l1 l2 : writes (l1 ++ l2) = (writes l1 + writes l2)%nat.
Proof. induction l1 as [|[] l1 IH]; cbn; auto. Qed.

Lemma pauses_app l1 l2 : pauses (l1 ++ l2) = (pauses l1 + pauses l2)%nat.
Proof. induction l1 as [|[] l1 IH]; cbn; auto. Qed.

End LogCounts.

Section SetLevelMore.
Import Leveler.
#[local] Arguments set_fields : simpl never.

Variable _required_exp : Z → Z.
Variable _level_exp : Z → Z.
Variable _create_user : Member → Z → gmap string document → gmap string document.

(** A bot is shown the help and nothing else happens. *)
Lemma setlevel_bot server channel user level w :
  bot user = true →
  setlevel _required_exp _level_exp _create_user server channel user level w
  = (Ok tt, {| users := users w; log := log w ++ [EvSendHelp] |}).
Proof. intros Hbot. unfold setlevel. by rewrite Hbot. Qed.

(** A negative level is answered and nothing is written. *)
Lemma setlevel_negative_run server channel user level w :
  bot user = false →
  level < 0 →
  setlevel _required_exp _level_exp _create_user server channel user level w
  = (Ok tt, {| users := _create_user user server (users w);
               log := log w ++ [EvSend "Please enter a positive number."] |}).
Proof.
  intros Hbot Hlevel. unfold setlevel. rewrite Hbot.
  unfold mbind, Eff_bind, create_user, db_find_one. cbn.
  destruct (decide (level < 0)); [done|lia].
Qed.


(** X2.  [setlevel] leaves the records of the other users alone: under every
    id but the member's the store holds afterwards what [_create_user] left
    there, and for an automated account what was there before. *)
Theorem setlevel_other_users server channel user level w k :
  k ≠ str (id user) →
  users (setlevel _required_exp _level_exp _create_user server channel user level w).2 !! k
  = (if bot user then users w else _create_user user server (users w)) !! k.
Proof.
  intros Hk. destruct (bot user) eqn:Hbot.
  { by rewrite setlevel_bot. }
  destruct (decide (level < 0)) as [Hneg|Hpos].
  { by rewrite setlevel_negative_run. }
  destruct (ledger_of (_create_user user server (users w)) (str (id user)) server)
    as [[[t l] c]|] eqn:Hled.
  - pose proof Hled as (doc & svs & st & Hdoc & Ht & Hs & Hg & Hl & Hc)%ledger_of_Some.
    rewrite (setlevel_run _ _ _ server channel user level w doc svs st t l c)
      by (done || lia).
    cbn [snd users]. by rewrite lookup_insert_ne.
  - destruct (setlevel_needs_entry _required_exp _level_exp _create_user
                server channel user level w Hbot ltac:(lia) Hled) as [e ->].
    done.
Qed.

(** X3.  When [setlevel] rewrites a record it changes the entry of its guild
    and [total_exp] only: the level and experience of the member in every
    other guild, and every field of the record other than [total_exp] and
    [servers], are what they were. *)
Theorem setlevel_other_guilds server channel user level w t l c :
  bot user = false →
  0 ≤ level →
  ledger_of (_create_user user server (users w)) (str (id user)) server = Some (t, l, c) →
  (∀ guild, guild ≠ server →
     standing_of
       (users (setlevel _required_exp _level_exp _create_user server channel user level w).2)
       (str (id user)) guild
     = standing_of (_create_user user server (users w)) (str (id user)) guild) ∧
  (∀ field, field ≠ "total_exp"%string → field ≠ "servers"%string →
     record_field
       (users (setlevel _required_exp _level_exp _create_user server channel user level w).2)
       (str (id user)) field
     = record_field (_create_user user server (users w)) (str (id user)) field).
Proof.
  intros Hbot Hlevel Hled.
  pose proof Hled as (doc & svs & st & Hdoc & Ht & Hs & Hg & Hl & Hc)%ledger_of_Some.
  rewrite (setlevel_run _ _ _ server channel user level w doc svs st t l c) by done.
  cbn [snd users]. split.
  - intros guild Hne. unfold standing_of.
    rewrite lookup_insert_eq, Hdoc, with_standing_servers, Hs.
    rewrite lookup_insert_ne; [done|]. intros Heq. by apply str_inj in Heq.
  - intros field Hf1 Hf2. unfold record_field.
    rewrite lookup_insert_eq, Hdoc. unfold with_standing.
    by rewrite !lookup_insert_ne.
Qed.

(** X4.  The last thing [setlevel] does is to call [_handle_levelup], and the
    record it hands over is the record it has just stored. *)
Theorem setlevel_levelup_record server channel user level w t l c :
  bot user = false →
  0 ≤ level →
  ledger_of (_create_user user server (users w)) (str (id user)) server = Some (t, l, c) →
  ∃ doc,
    users (setlevel _required_exp _level_exp _create_user server channel user level w).2
      !! str (id user) = Some doc ∧
    last (log (setlevel _required_exp _level_exp _create_user server channel user level w).2)
      = Some (EvLevelup user (VDict doc) server channel).
Proof.
  intros Hbot Hlevel Hled.
  pose proof Hled as (doc & svs & st & Hdoc & Ht & Hs & Hg & Hl & Hc)%ledger_of_Some.
  rewrite (setlevel_run _ _ _ server channel user level w doc svs st t l c) by done.
  cbn [snd users log]. eexists. split; [apply lookup_insert_eq|].
  by rewrite last_app.
Qed.

(** X5.  [setlevel] writes at most once, and to the record of the member only;
    for an automated account or a negative level it writes nothing. *)
Theorem setlevel_single_write server channel user level w :
  (∀ k, k ≠ str (id user) →
     writes_to k
       (log (setlevel _required_exp _level_exp _create_user server channel user level w).2)
     = writes_to k (log w)) ∧
  (length (writes_to (str (id user))
     (log (setlevel _required_exp _level_exp _create_user server channel user level w).2))
   ≤ S (length (writes_to (str (id user)) (log w))))%nat ∧
  (bot user = true ∨ level < 0 →
   writes
     (log (setlevel _required_exp _level_exp _create_user server channel user level w).2)
   = writes (log w)).
Proof.
  destruct (bot user) eqn:Hbot.
  { rewrite setlevel_bot by done. cbn [snd log].
    repeat split; intros; rewrite ?writes_to_app, ?writes_app; cbn;
      rewrite ?app_nil_r; lia || done. }
  destruct (decide (level < 0)) as [Hneg|Hpos].
  { rewrite setlevel_negative_run by done. cbn [snd log].
    repeat split; intros; rewrite ?writes_to_app, ?writes_app; cbn;
      rewrite ?app_nil_r; lia || done. }
  destruct (ledger_of (_create_user user server (users w)) (str (id user)) server)
    as [[[t l] c]|] eqn:Hled.
  - pose proof Hled as (doc & svs & st & Hdoc & Ht & Hs & Hg & Hl & Hc)%ledger_of_Some.
    rewrite (setlevel_run _ _ _ server channel user level w doc svs st t l c)
      by (done || lia).
    cbn [snd log]. split; [|split].
    + intros k Hk. rewrite writes_to_app. cbn.
      destruct (decide (str (id user) = k)); [congruence|]. by rewrite app_nil_r.
    + rewrite writes_to_app. cbn. destruct (decide _); [|done].
      rewrite length_app. cbn. lia.
    + intros [|]; [done|lia].
  - destruct (setlevel_needs_entry _required_exp _level_exp _create_user
                server channel user level w Hbot ltac:(lia) Hled) as [e ->].
    cbn [snd log]. split; [done|]. split; [lia|done].
Qed.

End SetLevelMore.

(** ** The bulk reset *)

Section ResetMore.
Import Leveler.
#[local] Arguments set_fields : simpl never.

Lemma str_head n : ∃ c s, str n = String c s ∧ c ≠ "s"%char ∧ c ≠ "t"%char.
Proof.
  unfold str, NilZero.string_of_int, NilZero.string_of_uint.
  destruct (Z.to_int n) as [u|u]; destruct u; cbn; eexists _, _; (split; [reflexivity|done]).
Qed.

Lemma str_not_field n : str n ≠ "servers"%string ∧ str n ≠ "total_exp"%string.
Proof.
  destruct (str_head n) as (c & s & -> & Hs & Ht). split; intros [= -> _]; done.
Qed.

Lemma set_fields_entry doc svs g lvl total :
  doc !! "servers"%string = Some (VDict svs) →
  (svs !! str g = None ∨ ∃ st, svs !! str g = Some (VDict st)) →
  set_fields
    [("servers." +:+ str g +:+ ".level", VInt lvl);
     ("servers." +:+ str g +:+ ".current_exp", VInt 0);
     ("total_exp"%string, total)] doc
  = Ok (with_standing doc svs (entry_of svs g) g lvl total).
Proof.
  intros Hs [Hg|[st Hg]]; unfold entry_of; rewrite Hg.
  - unfold set_fields.
    change (".level"%string) with ("." +:+ "level").
    change (".current_exp"%string) with ("." +:+ "current_exp").
    rewrite !servers_path by done.
    cbn [set_path]. rewrite Hs, Hg. cbn.
    rewrite lookup_insert_eq. cbn. rewrite lookup_insert_eq. cbn.
    rewrite !insert_insert_eq. done.
  - by apply set_fields_standing.
Qed.

Lemma resettable_inv guild doc :
  resettable guild doc = true →
  ∃ t svs,
    doc !! "total_exp"%string = Some (VInt t) ∧
    doc !! str guild = None ∧
    doc !! "servers"%string = Some (VDict svs) ∧
    (svs !! str guild = None ∨ ∃ st, svs !! str guild = Some (VDict st)).
Proof.
  unfold resettable.
  destruct (doc !! "total_exp"%string) as [[|t| |]|]; try done.
  destruct (doc !! str guild); try done.
  destruct (doc !! "servers"%string) as [[| | |svs]|]; try done.
  destruct (svs !! str guild) as [[| | |st]|] eqn:Hg; try done;
    exists t, svs; repeat split; eauto.
Qed.

(** One turn of the loop on a record it can rewrite. *)
Lemma reset_member_run guild total m current w doc :
  bot m = false →
  users w !! str (id m) = Some doc →
  resettable guild doc = true →
  ∃ t svs,
    doc !! "total_exp"%string = Some (VInt t) ∧
    doc !! "servers"%string = Some (VDict svs) ∧
    reset_member guild total m current w
    = (Ok (current + 1),
       {| users := <[str (id m) :=
                      with_standing doc svs (entry_of svs guild) guild 0 (VInt t)]> (users w);
          log := log w ++
            EvUpdate (str (id m)) (setlevel_fields guild 0 t)
            :: progress total (current + 1) |}).
Proof.
  intros Hbot Hdoc (t & svs & Ht & Hnokey & Hs & Hg)%resettable_inv.
  exists t, svs. split; [done|]. split; [done|].
  unfold reset_member. rewrite Hbot.
  unfold mbind, Eff_bind, db_find_one, find_one, lift. cbn.
  rewrite Hdoc. cbn. rewrite Ht, Hnokey. cbn.
  rewrite lookup_empty. cbn.
  unfold db_update_one, update_one. rewrite Hdoc. cbn.
  rewrite (set_fields_entry doc svs) by done. cbn.
  rewrite Z.sub_0_r. unfold progress, setlevel_fields, emit.
  destruct (decide _); cbn; [|done].
  by rewrite <- !app_assoc.
Qed.

Lemma reset_member_skip guild total m current w :
  bot m = true ∨ users w !! str (id m) = None →
  reset_member guild total m current w = (Ok current, w).
Proof.
  intros Hskip. unfold reset_member. destruct (bot m); [done|].
  destruct Hskip as [|Hnone]; [done|].
  unfold mbind, Eff_bind, db_find_one, find_one. cbn. by rewrite Hnone.
Qed.

(** The rest of the loop leaves alone a record none of its members owns. *)
Lemma reset_loop_other guild total members k current w :
  (∀ m, m ∈ members → str (id m) ≠ k) →
  users (reset_loop guild total members current w).2 !! k = users w !! k.
Proof.
  intros Hk.
  apply (reset_loop_frame guild total members k current w).
  intros m Hm Heq. by destruct (Hk m Hm).
Qed.

Lemma reset_ready_ext guild us us' m :
  us !! str (id m) = us' !! str (id m) →
  reset_ready guild us m = reset_ready guild us' m.
Proof. intros Heq. unfold reset_ready. by rewrite Heq. Qed.

Lemma at_rest_ext guild us us' m :
  us !! str (id m) = us' !! str (id m) →
  at_rest guild us m = at_rest guild us' m.
Proof. intros Heq. unfold at_rest, ledger_of. by rewrite Heq. Qed.

Lemma standing_of_ext us us' k g :
  us !! k = us' !! k → standing_of us k g = standing_of us' k g.
Proof. intros Heq. unfold standing_of. by rewrite Heq. Qed.

Lemma total_exp_of_ext us us' k :
  us !! k = us' !! k → total_exp_of us k = total_exp_of us' k.
Proof. intros Heq. unfold total_exp_of. by rewrite Heq. Qed.

(** What the rewritten record holds. *)
Lemma reset_record guild doc t svs us k :
  doc !! "total_exp"%string = Some (VInt t) →
  doc !! str guild = None →
  doc !! "servers"%string = Some (VDict svs) →
  us !! k = Some (with_standing doc svs (entry_of svs guild) guild 0 (VInt t)) →
  ledger_of us k guild = Some (t, 0, 0) ∧
  record_field us k (str guild) = None ∧
  (∀ g, g ≠ guild →
     standing_of us k g
     = match svs !! str g with Some v => standing v | None => None end).
Proof.
  intros Ht Hnokey Hs Hk. split; [|split].
  - unfold ledger_of. rewrite Hk, with_standing_total, with_standing_servers.
    by rewrite lookup_insert_eq, standing_set.
  - unfold record_field. rewrite Hk. unfold with_standing.
    destruct (str_not_field guild) as [H1 H2].
    by rewrite !lookup_insert_ne.
  - intros g Hg. unfold standing_of.
    rewrite Hk, with_standing_servers, lookup_insert_ne; [done|].
    intros Heq. by apply str_inj in Heq.
Qed.

Lemma forallb_elem_of {A} (f : A → bool) l :
  forallb f l = true ↔ ∀ x, x ∈ l → f x = true.
Proof.
  rewrite forallb_forall. split; intros H x Hx; apply H; by apply list_elem_of_In.
Qed.

(** The loop over members it gets past: it completes, every member that has
    a record and is no automated account ends at level 0 with no experience
    and the [total_exp] it had, keeps its standing in the other guilds, and
    every member is left at rest. *)
Lemma reset_loop_ok guild total members : ∀ current w,
  NoDup (id <$> members) →
  forallb (reset_ready guild (users w)) members = true →
  ∃ current',
    (reset_loop guild total members current w).1 = Ok current' ∧
    (∀ m, m ∈ members → bot m = false → is_Some (users w !! str (id m)) →
       standing_of (users (reset_loop guild total members current w).2)
         (str (id m)) guild = Some (0, 0) ∧
       total_exp_of (users (reset_loop guild total members current w).2) (str (id m))
       = total_exp_of (users w) (str (id m)) ∧
       ∀ g, g ≠ guild →
         standing_of (users (reset_loop guild total members current w).2) (str (id m)) g
         = standing_of (users w) (str (id m)) g) ∧
    forallb (at_rest guild (users (reset_loop guild total members current w).2)) members
    = true.
Proof.
  induction members as [|m rest IH]; intros current w Hnodup Hready.
  { exists current. cbn. split; [done|]. split; [|done].
    intros m Hm. by apply elem_of_nil in Hm. }
  cbn in Hnodup, Hready. apply NoDup_cons in Hnodup as [Hfresh Hnodup].
  apply andb_prop in Hready as [Hm Hready].
  assert (∀ m', m' ∈ rest → str (id m') ≠ str (id m)) as Hdiff.
  { intros m' Hm' Heq%str_inj. apply Hfresh. rewrite <- Heq.
    by apply list_elem_of_fmap_2. }
  cbn [reset_loop]. unfold mbind, Eff_bind.
  destruct (decide (bot m = true ∨ users w !! str (id m) = None)) as [Hskip|Hrun].
  - rewrite (reset_member_skip guild total m current w Hskip).
    destruct (IH current w Hnodup Hready) as (current' & Hok & Hmem & Hrest).
    pose proof (reset_loop_other guild total rest (str (id m)) current w Hdiff) as Hsame.
    destruct (reset_loop guild total rest current w) as [r w'] eqn:Hloop.
    cbn [fst snd] in *. exists current'. split; [done|]. split.
    + intros m' [->|Hm']%elem_of_cons Hbot [doc Hdoc]; [|by eauto].
      destruct Hskip; congruence.
    + cbn. rewrite Hrest, andb_true_r. unfold at_rest.
      destruct Hskip as [->|Hnone]; [done|].
      rewrite Hsame, Hnone. apply orb_true_r.
  - assert (bot m = false) as Hbot by (destruct (bot m); [tauto|done]).
    destruct (users w !! str (id m)) as [doc|] eqn:Hdoc; [|tauto].
    unfold reset_ready in Hm. rewrite Hbot, Hdoc in Hm. cbn in Hm.
    destruct (reset_member_run guild total m current w doc Hbot Hdoc Hm)
      as (t & svs & Ht & Hs & ->).
    pose proof Hm as (t' & svs' & Ht' & Hnokey & Hs' & Hg)%resettable_inv.
    set (doc1 := with_standing doc svs (entry_of svs guild) guild 0 (VInt t)).
    set (w1 := {| users := <[str (id m) := doc1]> (users w); log := _ |}).
    assert (∀ k, k ≠ str (id m) → users w1 !! k = users w !! k) as Hw1.
    { intros k Hk. cbn. by rewrite lookup_insert_ne. }
    destruct (IH (current + 1) w1 Hnodup) as (current' & Hok & Hmem & Hrest).
    { apply forallb_elem_of. intros m' Hm'.
      rewrite (reset_ready_ext guild (users w1) (users w)) by (apply Hw1; auto).
      by apply (proj1 (forallb_elem_of _ _) Hready). }
    pose proof (reset_loop_other guild total rest (str (id m)) (current + 1) w1 Hdiff)
      as Hsame.
    destruct (reset_loop guild total rest (current + 1) w1) as [r w'] eqn:Hloop.
    cbn [fst snd] in *. exists current'. split; [done|].
    assert (users w' !! str (id m) = Some doc1) as Hdoc1.
    { rewrite Hsame. cbn. apply lookup_insert_eq. }
    destruct (reset_record guild doc t svs (users w') (str (id m)))
      as (Hled & Hfield & Hothers); try done.
    split.
    + intros m' [->|Hm']%elem_of_cons Hbot' [doc' Hdoc'].
      * split; [|split].
        -- unfold standing_of. unfold ledger_of in Hled.
           destruct (users w' !! str (id m)) as [d|]; [|done].
           destruct (d !! "total_exp"%string) as [[]|]; try done.
           destruct (d !! "servers"%string) as [[| | |sv]|]; try done.
           destruct (sv !! str guild) as [v|]; [|done].
           destruct (standing v) as [[l c]|]; [|done]. congruence.
        -- unfold total_exp_of. rewrite Hdoc1, Hdoc.
           unfold doc1. by rewrite with_standing_total, Ht.
        -- intros g Hne. rewrite Hothers by done.
           unfold standing_of. by rewrite Hdoc, Hs.
      * destruct (Hmem m' Hm' Hbot') as (H1 & H2 & H3).
        { rewrite Hw1 by auto. eauto. }
        split; [done|]. split.
        -- rewrite H2. apply total_exp_of_ext, Hw1. auto.
        -- intros g Hne. rewrite H3 by done. apply standing_of_ext, Hw1. auto.
    + cbn. rewrite Hrest, andb_true_r. unfold at_rest. rewrite Hbot. cbn.
      rewrite Hdoc1, Hled.
      unfold record_field in Hfield. rewrite Hdoc1 in Hfield. by rewrite Hfield.
Qed.

(** The command around its loop. *)
Lemma resetranks_loop guild members w :
  users (resetranks guild members w).2
  = users (reset_loop guild (Z.of_nat (length members)) members 0 (greeted members w)).2
  ∧ (∀ current,
       (reset_loop guild (Z.of_nat (length members)) members 0 (greeted members w)).1
       = Ok current →
       (resetranks guild members w).1 = Ok tt).
Proof.
  unfold resetranks, mbind, Eff_bind, emit. cbn. fold (greeted members w).
  destruct (reset_loop _ _ members 0 (greeted members w)) as [[current|e] w1]; cbn.
  - split; [done|]. done.
  - split; [done|]. intros current [=].
Qed.

(** X6.  Over members with distinct ids whose records it can rewrite,
    [resetranks] completes, and every member that is no automated account and
    has a record ends at level 0 with experience 0 in the guild, with the
    [total_exp] it had and with its level and experience in every other guild
    as they were. *)
Theorem resetranks_resets_members guild members w :
  NoDup (id <$> members) →
  forallb (reset_ready guild (users w)) members = true →
  (resetranks guild members w).1 = Ok tt ∧
  ∀ m, m ∈ members → bot m = false → is_Some (users w !! str (id m)) →
    standing_of (users (resetranks guild members w).2) (str (id m)) guild = Some (0, 0) ∧
    total_exp_of (users (resetranks guild members w).2) (str (id m))
    = total_exp_of (users w) (str (id m)) ∧
    ∀ g, g ≠ guild →
      standing_of (users (resetranks guild members w).2) (str (id m)) g
      = standing_of (users w) (str (id m)) g.
Proof.
  intros Hnodup Hready.
  destruct (resetranks_loop guild members w) as [-> Hok].
  destruct (reset_loop_ok guild (Z.of_nat (length members)) members 0 (greeted members w)
              Hnodup Hready) as (current & Hloop & Hmem & _).
  split; [by eapply Hok|]. exact Hmem.
Qed.

(** The loop over members at rest completes and leaves the store as it is. *)
Lemma reset_loop_noop guild total members : ∀ current w,
  forallb (at_rest guild (users w)) members = true →
  (∃ current', (reset_loop guild total members current w).1 = Ok current') ∧
  users (reset_loop guild total members current w).2 = users w.
Proof.
  induction members as [|m rest IH]; intros current w Hrest; cbn; [eauto|].
  cbn in Hrest. apply andb_prop in Hrest as [Hm Hrest].
  unfold mbind, Eff_bind.
  destruct (decide (bot m = true ∨ users w !! str (id m) = None)) as [Hskip|Hrun].
  { rewrite (reset_member_skip guild total m current w Hskip).
    destruct (IH current w Hrest) as [[current' Hok] Husers].
    destruct (reset_loop guild total rest current w) as [r w']. cbn in *. eauto. }
  assert (bot m = false) as Hbot by (destruct (bot m); [tauto|done]).
  destruct (users w !! str (id m)) as [doc|] eqn:Hdoc; [|tauto].
  unfold at_rest in Hm. rewrite Hbot, Hdoc in Hm. cbn in Hm.
  destruct (ledger_of (users w) (str (id m)) guild) as [[[t l] c]|] eqn:Hled; [|done].
  destruct l; try done. destruct c; try done.
  destruct (doc !! str guild) eqn:Hnokey; [done|].
  pose proof (reset_member_noop guild total m current w doc t Hdoc Hled Hnokey) as Hsame.
  destruct (reset_member_total guild total m current w doc t 0 0 Hbot Hdoc Hled Hnokey)
    as (Hok & _).
  destruct (reset_member guild total m current w) as [r w1]. cbn in *. subst r.
  destruct (IH (current + 1) w1) as [[current' Hok'] Husers].
  { by rewrite Hsame. }
  destruct (reset_loop guild total rest (current + 1) w1) as [r w']. cbn in *.
  split; [eauto|congruence].
Qed.


(** X8.  [resetranks] neither changes nor writes to the record of a user that
    is not among the members it walks. *)
Theorem resetranks_other_users guild members w k :
  Forall (λ m, str (id m) ≠ k) members →
  users (resetranks guild members w).2 !! k = users w !! k ∧
  writes_to k (log (resetranks guild members w).2) = writes_to k (log w).
Proof.
  intros Hk. rewrite Forall_forall in Hk.
  destruct (reset_loop_frame guild (Z.of_nat (length members)) members k 0
              (greeted members w)) as (_ & Hu & new & Hl & Hn).
  { intros m Hm Heq. by destruct (Hk m Hm). }
  unfold resetranks, mbind, Eff_bind, emit. cbn. fold (greeted members w).
  destruct (reset_loop _ _ members 0 (greeted members w)) as [[current|e] w1]; cbn in *.
  - split; [done|].
    rewrite Hl, !writes_to_app, (writes_to_none _ new) by done. cbn.
    by rewrite !app_nil_r.
  - split; [done|].
    rewrite Hl, !writes_to_app, (writes_to_none _ new) by done. cbn.
    by rewrite !app_nil_r.
Qed.

(** What a turn of the loop that returns adds to the log: one write when the
    counter moves, and a pause when it reaches a multiple of 100. *)
Lemma reset_member_counts guild total m current w current' :
  (reset_member guild total m current w).1 = Ok current' →
  ∃ new,
    log (reset_member guild total m current w).2 = log w ++ new ∧
    Z.of_nat (writes new) = current' - current ∧
    Z.of_nat (pauses new) = current' `div` 100 - current `div` 100.
Proof.
  unfold reset_member.
  assert (∀ w0 : World, ∃ new, log w0 = log w0 ++ new ∧
            Z.of_nat (writes new) = current - current ∧
            Z.of_nat (pauses new) = current `div` 100 - current `div` 100) as Hnil.
  { intros w0. exists []. rewrite app_nil_r. cbn. split; [done|]. lia. }
  destruct (bot m); [intros [= <-]; apply Hnil|].
  unfold mbind, Eff_bind, db_find_one, find_one, lift. cbn.
  destruct (users w !! str (id m)) as [doc|]; [|intros [= <-]; apply Hnil].
  cbn.
  destruct (doc !! "total_exp"%string) as [t|]; cbn; [|done].
  destruct (default (VDict ∅) (doc !! str guild)) as [| | |st]; cbn; try done.
  destruct (sub t (default (VInt 0) (st !! "current_exp"%string))) as [t'|e]; cbn;
    [|done].
  unfold db_update_one. cbn.
  destruct (update_one (users w) (str (id m)) _) as [us|e]; cbn; [|done].
  destruct (decide ((current + 1) `mod` 100 = 0)) as [Hmod|Hmod]; cbn.
  - intros [= <-]. eexists [_; _; _]. rewrite <- !app_assoc. cbn.
    split; [done|]. split; [lia|].
    change (Z.of_nat 1) with 1. 
    pose proof (Z.div_mod (current + 1) 100 ltac:(lia)).
    pose proof (Z.div_mod current 100 ltac:(lia)).
    pose proof (Z.mod_pos_bound current 100 ltac:(lia)). lia.
  - intros [= <-]. eexists [_]. cbn. split; [done|]. split; [lia|].
    change (Z.of_nat 0) with 0.
    pose proof (Z.div_mod (current + 1) 100 ltac:(lia)).
    pose proof (Z.div_mod current 100 ltac:(lia)).
    pose proof (Z.mod_pos_bound current 100 ltac:(lia)).
    pose proof (Z.mod_pos_bound (current + 1) 100 ltac:(lia)). lia.
Qed.

Lemma reset_loop_counts guild total members : ∀ current w current',
  (reset_loop guild total members current w).1 = Ok current' →
  ∃ new,
    log (reset_loop guild total members current w).2 = log w ++ new ∧
    Z.of_nat (writes new) = current' - current ∧
    Z.of_nat (pauses new) = current' `div` 100 - current `div` 100.
Proof.
  induction members as [|m rest IH]; intros current w current'; cbn.
  { intros [= <-]. exists []. rewrite app_nil_r. cbn. split; [done|]. lia. }
  unfold mbind, Eff_bind.
  pose proof (reset_member_counts guild total m current w) as Hstep.
  destruct (reset_member guild total m current w) as [[c1|e] w1]; cbn in *; [|done].
  destruct (Hstep c1 eq_refl) as (new1 & Hl1 & Hw1 & Hp1).
  intros Hloop. destruct (IH c1 w1 current' Hloop) as (new2 & Hl2 & Hw2 & Hp2).
  exists (new1 ++ new2). rewrite Hl2, Hl1, app_assoc, writes_app, pauses_app.
  split; [done|]. lia.
Qed.

(** X9.  When [resetranks] completes it has paused once for every hundred
    records it rewrote: the pauses it adds to the log are the writes it adds,
    divided by 100 and rounded down. *)
Theorem resetranks_pauses guild members w :
  (resetranks guild members w).1 = Ok tt →
  Z.of_nat (pauses (log (resetranks guild members w).2))
  = Z.of_nat (pauses (log w))
    + (Z.of_nat (writes (log (resetranks guild members w).2)) - Z.of_nat (writes (log w)))
      `div` 100.
Proof.
  unfold resetranks, mbind, Eff_bind, emit. cbn. fold (greeted members w).
  pose proof (reset_loop_counts guild (Z.of_nat (length members)) members 0
                (greeted members w)) as Hloop.
  destruct (reset_loop _ _ members 0 (greeted members w)) as [[current|e] w1];
    cbn in *; [|done].
  intros _. destruct (Hloop current eq_refl) as (new & Hl & Hw & Hp).
  rewrite Hl, !pauses_app, !writes_app. cbn.
  rewrite Z.sub_0_r in Hw. change (0 `div` 100) with 0 in Hp. rewrite Z.sub_0_r in Hp.
  rewrite !Nat2Z.inj_add, Hw, Hp. cbn. change (Z.of_nat 0) with 0.
  replace (Z.of_nat (writes (log w)) + 0 + current + 0 - Z.of_nat (writes (log w)))
    with current by lia.
  lia.
Qed.

Lemma reset_loop_app guild total l1 l2 : ∀ current w,
  reset_loop guild total (l1 ++ l2) current w
  = match reset_loop guild total l1 current w with
    | (Ok c, w1) => reset_loop guild total l2 c w1
    | (Raise e, w1) => (Raise e, w1)
    end.
Proof.
  induction l1 as [|m l1 IH]; intros current w; cbn; [done|].
  unfold mbind, Eff_bind.
  destruct (reset_member guild total m current w) as [[c|e] w1]; [apply IH|done].
Qed.

(** X10.  [resetranks] does not roll back: at the first member whose record has
    no [total_exp] it raises [KeyError]; the members before it, whose records
    it could rewrite, have been reset, and the records of that member and of
    the members after it are what they were. *)
Theorem resetranks_stops_at_bad_record guild pre m post w doc :
  NoDup (id <$> (pre ++ m :: post)) →
  forallb (reset_ready guild (users w)) pre = true →
  bot m = false →
  users w !! str (id m) = Some doc →
  doc !! "total_exp"%string = None →
  (resetranks guild (pre ++ m :: post) w).1 = Raise (KeyError "total_exp") ∧
  (∀ m', m' ∈ pre → bot m' = false → is_Some (users w !! str (id m')) →
     standing_of (users (resetranks guild (pre ++ m :: post) w).2) (str (id m')) guild
     = Some (0, 0)) ∧
  (∀ m', m' ∈ m :: post →
     users (resetranks guild (pre ++ m :: post) w).2 !! str (id m')
     = users w !! str (id m')).
Proof.
  intros Hnodup Hready Hbot Hdoc Hbad.
  rewrite fmap_app in Hnodup. apply NoDup_app in Hnodup as (Hpre & Hsep & Hpost).
  assert (∀ m1 m2, m1 ∈ pre → m2 ∈ m :: post → str (id m1) ≠ str (id m2)) as Hdiff.
  { intros m1 m2 H1 H2 Heq%str_inj. apply (Hsep (id m1)).
    - by apply list_elem_of_fmap_2.
    - rewrite Heq. by apply (list_elem_of_fmap_2 id). }
  unfold resetranks, mbind, Eff_bind, emit. cbn.
  set (total := Z.of_nat (length (pre ++ m :: post))).
  set (w0 := {| users := users w; log := _ |}).
  rewrite reset_loop_app.
  destruct (reset_loop_ok guild total pre 0 w0 Hpre Hready) as (c & Hok & Hmem & _).
  assert (∀ k, (∀ m1, m1 ∈ pre → str (id m1) ≠ k) →
            users (reset_loop guild total pre 0 w0).2 !! k = users w !! k) as Hframe.
  { intros k Hk. by rewrite reset_loop_other. }
  destruct (reset_loop guild total pre 0 w0) as [r w1]. cbn [fst snd] in *. subst r.
  assert (users w1 !! str (id m) = Some doc) as Hdoc1.
  { rewrite Hframe; [done|]. intros m1 H1. apply Hdiff; [done|left]. }
  cbn [reset_loop]. unfold mbind, Eff_bind.
  assert (reset_member guild total m c w1 = (Raise (KeyError "total_exp"), w1)) as ->.
  { unfold reset_member. rewrite Hbot.
    unfold mbind, Eff_bind, db_find_one, find_one, lift. cbn.
    rewrite Hdoc1. cbn. by rewrite Hbad. }
  cbn [fst snd]. split; [done|]. split.
  - intros m' Hm' Hbot' Hsome. by apply Hmem.
  - intros m' Hm'. apply Hframe. intros m1 H1. by apply Hdiff.
Qed.

End ResetMore.

(** ** The pagination view *)

Section SliceFacts.
Context {A : Type}.
Implicit Types l : list A.

Lemma slice_head l (k : Z) : 0 ≤ k → slice l None (Some k) = take (Z.to_nat k) l.
Proof.
  intros Hk. unfold slice, slice_bound. cbn.
  destruct (decide (k < 0)); [lia|].
  rewrite Z.sub_0_r.
  destruct (decide (Z.of_nat (length l) ≤ k)).
  - rewrite Z.min_l, Z.max_r by lia. rewrite Nat2Z.id.
    change (drop (Z.to_nat 0) l) with l. by rewrite !take_ge by lia.
  - rewrite Z.min_r, Z.max_r by lia. done.
Qed.

Lemma slice_window l (a b : Z) :
  0 ≤ a ≤ b → b ≤ Z.of_nat (length l) →
  slice l (Some a) (Some b) = take (Z.to_nat (b - a)) (drop (Z.to_nat a) l).
Proof.
  intros Hab Hb. unfold slice, slice_bound.
  destruct (decide (a < 0)); [lia|]. destruct (decide (b < 0)); [lia|].
  by rewrite !Z.min_r, !Z.max_r by lia.
Qed.

Lemma slice_tail l (a : Z) :
  0 ≤ a ≤ Z.of_nat (length l) →
  slice l (Some a) None = drop (Z.to_nat a) l.
Proof.
  intros Ha. unfold slice, slice_bound.
  destruct (decide (a < 0)); [lia|].
  rewrite Z.min_r, Z.max_r by lia.
  apply take_ge. rewrite length_drop. lia.
Qed.

Lemma list_getitem_past l i :
  Z.of_nat (length l) ≤ i → list_getitem l i = Raise IndexError.
Proof.
  intros Hi. unfold list_getitem. cbv zeta.
  destruct (decide (i < 0)); [lia|].
  destruct (decide _) as [Hlt|_]; [lia|done].
Qed.

Lemma list_getitem_at l i x :
  0 ≤ i → l !! Z.to_nat i = Some x → list_getitem l i = Ok x.
Proof.
  intros Hi Hx. pose proof (lookup_lt_Some _ _ _ Hx) as Hlt.
  unfold list_getitem. cbv zeta.
  destruct (decide (i < 0)); [lia|].
  destruct (decide _) as [_|Hno]; [|lia]. by rewrite Hx.
Qed.

End SliceFacts.

Section ViewMoreFacts.
Import Menus.
Context {Page : Type}.
Implicit Types v : BaseView Page.

Ltac case_kwargs :=
  match goal with
  | |- context [_get_kwargs_from_page ?p ?s] =>
      let H := fresh in
      pose proof (get_kwargs_state p s) as H;
      destruct (_get_kwargs_from_page p s) as [[[?|]|?] ?];
      cbn in H; subst
  end.

Lemma select_menu_window v :
  0 ≤ select_menu_start v ∧
  _get_select_menu v
  = take 25 (drop (Z.to_nat (select_menu_start v)) (view_select_options v)) ∧
  (Z.of_nat (length (view_select_options v)) > 25 →
   select_menu_start v + 25 ≤ Z.of_nat (length (view_select_options v))).
Proof.
  unfold _get_select_menu, select_menu_start. cbn zeta.
  set (options := view_select_options v). set (n := Z.of_nat (length options)).
  destruct (decide (n > 25)) as [Hbig|Hsmall].
  - destruct (decide (12 < current_page v ∧ current_page v < n - 25)) as [[H1 H2]|Hmid].
    + split; [lia|]. split; [|lia].
      rewrite slice_window by (fold n; lia). f_equal. lia.
    + destruct (decide (current_page v >= n - 25)).
      * split; [lia|]. split; [|lia].
        rewrite slice_tail by (fold n; lia).
        symmetry. apply take_ge. rewrite length_drop. subst n. lia.
      * split; [lia|]. split; [|lia]. by rewrite slice_head.
  - split; [lia|]. split; [|lia]. by rewrite slice_head.
Qed.

(** X11.  The select menu holds 25 options, or all of them when the source
    has fewer. *)
Theorem select_menu_length v :
  length (_get_select_menu v) = Nat.min 25 (length (view_select_options v)).
Proof.
  destruct (select_menu_window v) as (Hlo & -> & Hfit).
  rewrite length_take, length_drop.
  destruct (decide (Z.of_nat (length (view_select_options v)) > 25)) as [Hbig|Hsmall].
  - specialize (Hfit Hbig). rewrite !Nat.min_l; lia.
  - unfold select_menu_start. cbn zeta.
    destruct (decide _); [lia|]. change (Z.to_nat 0) with O.
    by rewrite Nat.sub_0_r.
Qed.

(** X12.  When the current page is one of the options, the select menu holds
    it, [current_page - select_menu_start] places from its start. *)
Theorem select_menu_has_current_page v option :
  0 ≤ current_page v →
  view_select_options v !! Z.to_nat (current_page v) = Some option →
  _get_select_menu v !! Z.to_nat (current_page v - select_menu_start v) = Some option.
Proof.
  intros Hcur Hopt.
  pose proof (lookup_lt_Some _ _ _ Hopt) as Hlt.
  destruct (select_menu_window v) as (Hlo & -> & Hfit).
  assert (select_menu_start v ≤ current_page v < select_menu_start v + 25) as Hin.
  { unfold select_menu_start in *. cbn zeta in *.
    destruct (decide (_ > 25)); [|lia].
    destruct (decide (12 < _ ∧ _)); [lia|].
    destruct (decide (_ >= _)); lia. }
  rewrite lookup_take_lt by lia. rewrite lookup_drop.
  rewrite <- Hopt. f_equal. lia.
Qed.

(** X14.  For a source that cannot tell its number of pages,
    [show_checked_page] asks for the page as given.  On a source that has the
    attribute [select_options], the page becomes the current page when the
    source delivers it, whatever its number; on a source without the
    attribute [AttributeError] is raised and the current page stays what it
    was. *)
Theorem show_checked_page_unchecked v page_number :
  get_max_pages (_source v) = None →
  (∀ options page,
     select_options (_source v) = Some options →
     get_page (_source v) page_number = Ok page →
     current_page (show_checked_page page_number v).2 = page_number) ∧
  (select_options (_source v) = None →
     (show_checked_page page_number v).1 = Raise AttributeError ∧
     current_page (show_checked_page page_number v).2 = current_page v).
Proof.
  intros Hmax. split; [|by apply show_checked_page_no_options].
  intros options page Hopt Hpage.
  unfold show_checked_page, mbind, Eff_bind, view. cbn. rewrite Hmax.
  unfold ignoring_IndexError.
  destruct (show_page_fetched v page_number options page Hopt Hpage) as [Hcur _].
  by destruct (show_page page_number v) as [[[]|[]] v'].
Qed.

(** A checked move on a source that serves its pages. *)
Lemma checked_move v m page_number :
  serves_pages (_source v) m →
  0 < m →
  current_page (show_checked_page page_number v).2 = checked_page m page_number ∧
  _source (show_checked_page page_number v).2 = _source v.
Proof.
  intros (Hmax & [options Hopt] & Hserve) Hpos.
  rewrite (show_checked_page_known v page_number m Hmax).
  destruct (Hserve (checked_page m page_number)) as [page Hpage].
  { by apply checked_page_range. }
  destruct (show_page_fetched v (checked_page m page_number) options page Hopt Hpage)
    as [Hcur Hsrc].
  unfold ignoring_IndexError.
  by destruct (show_page (checked_page m page_number) v) as [[[]|[]] v'].
Qed.

Lemma checked_page_next m p :
  0 < m → 0 ≤ p < m → checked_page m (p + 1) = (p + 1) `mod` m.
Proof.
  intros Hm Hp. unfold checked_page.
  destruct (decide (p + 1 >= m)).
  - assert (p + 1 = m) as -> by lia. by rewrite Z.mod_same by lia.
  - destruct (decide (p + 1 < 0)); [lia|]. by rewrite Z.mod_small by lia.
Qed.

Lemma checked_page_prev m p :
  0 < m → 0 ≤ p < m → checked_page m (p - 1) = (p - 1) `mod` m.
Proof.
  intros Hm Hp. unfold checked_page.
  destruct (decide (p - 1 >= m)); [lia|].
  destruct (decide (p - 1 < 0)).
  - assert (p = 0) as -> by lia.
    apply (Z.mod_unique (0 - 1) m (-1) (m - 1)); lia.
  - by rewrite Z.mod_small by lia.
Qed.

(** X15.  On a source that has the attribute [select_options], reports [m]
    pages and delivers each of them, from a page in [0, m) the forward button
    leads to page [(current_page + 1) mod m] and the back button to page
    [(current_page - 1) mod m]. *)
Theorem buttons_step v m :
  serves_pages (_source v) m →
  0 ≤ current_page v < m →
  current_page (ForwardButton_callback v).2 = (current_page v + 1) `mod` m ∧
  current_page (BackButton_callback v).2 = (current_page v - 1) `mod` m.
Proof.
  intros Hserve Hcur.
  unfold ForwardButton_callback, BackButton_callback, mbind, Eff_bind, view. cbn.
  rewrite (proj1 (checked_move v m _ Hserve ltac:(lia))).
  rewrite (proj1 (checked_move v m _ Hserve ltac:(lia))).
  by rewrite checked_page_next, checked_page_prev by lia.
Qed.

(** X16.  On a source that has the attribute [select_options], reports [m]
    pages and delivers each of them, from a page in [0, m) the forward button
    followed by the back button, and the back button followed by the forward
    button, lead back to the page the view was on. *)
Theorem forward_then_back v m :
  serves_pages (_source v) m →
  0 ≤ current_page v < m →
  current_page (BackButton_callback (ForwardButton_callback v).2).2 = current_page v ∧
  current_page (ForwardButton_callback (BackButton_callback v).2).2 = current_page v.
Proof.
  intros Hserve Hcur.
  assert (0 < m) as Hm by lia.
  unfold ForwardButton_callback, BackButton_callback, mbind, Eff_bind, view. cbn.
  destruct (checked_move v m (current_page v + 1) Hserve Hm) as [Hf Hfs].
  destruct (checked_move v m (current_page v - 1) Hserve Hm) as [Hb Hbs].
  set (vf := (show_checked_page (current_page v + 1) v).2) in *.
  set (vb := (show_checked_page (current_page v - 1) v).2) in *.
  assert (serves_pages (_source vf) m) as Hservef by (by rewrite Hfs).
  assert (serves_pages (_source vb) m) as Hserveb by (by rewrite Hbs).
  rewrite (proj1 (checked_move vf m _ Hservef Hm)).
  rewrite (proj1 (checked_move vb m _ Hserveb Hm)).
  rewrite Hf, Hb. unfold checked_page.
  repeat (destruct (decide _)); lia.
Qed.

Lemma list_source_serves entries :
  serves_pages (list_source entries) (Z.of_nat (length entries)).
Proof.
  unfold serves_pages. cbn. split; [done|]. split; [eauto|].
  intros q Hq. destruct (lookup_lt_is_Some_2 entries (Z.to_nat q)) as [page Hpage]; [lia|].
  exists page. apply list_getitem_at; [lia|done].
Qed.

Lemma forward_presses_S n v :
  forward_presses (S n) v = (ForwardButton_callback (forward_presses n v)).2.
Proof. done. Qed.

(** X17.  On a source that has the attribute [select_options], reports [m]
    pages and delivers each of them, from a page in [0, m), [n] presses of
    the forward button lead to page [(current_page + n) mod m]; [m] presses
    lead back to the page the view was on. *)
Theorem forward_presses_page v m n :
  serves_pages (_source v) m →
  0 ≤ current_page v < m →
  current_page (forward_presses n v) = (current_page v + Z.of_nat n) `mod` m ∧
  (n = Z.to_nat m → current_page (forward_presses n v) = current_page v).
Proof.
  intros Hserve Hcur.
  assert (0 < m) as Hm by lia.
  assert (current_page (forward_presses n v) = (current_page v + Z.of_nat n) `mod` m
          ∧ _source (forward_presses n v) = _source v) as [Hpage _].
  { induction n as [|n [IHp IHs]].
    - cbn. split; [|done]. rewrite Z.add_0_r. by rewrite Z.mod_small.
    - rewrite forward_presses_S.
      set (vn := forward_presses n v) in *.
      assert (serves_pages (_source vn) m) as Hserven by (by rewrite IHs).
      unfold ForwardButton_callback, mbind, Eff_bind, view. cbn.
      destruct (checked_move vn m (current_page vn + 1) Hserven Hm) as [-> ->].
      split; [|done].
      rewrite checked_page_next; [|done|rewrite IHp; by apply Z.mod_pos_bound].
      rewrite IHp, Nat2Z.inj_succ, Z.add_mod_idemp_l by lia. f_equal. lia. }
  split; [done|]. intros ->. rewrite Hpage, Z2Nat.id by lia.
  rewrite <- (Z.mul_1_l m) at 1. rewrite Z.mod_add by lia. by apply Z.mod_small.
Qed.

(** X18.  After [show_page], whatever its outcome, each of the four
    navigation buttons is disabled exactly when the source is not
    paginating. *)
Theorem show_page_navigation v page_number :
  let v' := (show_page page_number v).2 in
  first_item_disabled v' = negb (is_paginating (_source v)) ∧
  back_button_disabled v' = negb (is_paginating (_source v)) ∧
  forward_button_disabled v' = negb (is_paginating (_source v)) ∧
  last_item_disabled v' = negb (is_paginating (_source v)).
Proof.
  unfold show_page, mbind, Eff_bind, view, lift. cbn.
  destruct (is_paginating (_source v)) eqn:Hpag; cbn;
    (destruct (select_options (_source v)) as [options|]; cbn; [|done]).
  - destruct (bool_decide _); cbn;
      (destruct (get_page (_source v) page_number) as [page|e]; cbn; [|done]);
      case_kwargs; done.
  - rewrite andb_false_r. cbn.
    destruct (get_page (_source v) page_number) as [page|e]; cbn; [|done].
    case_kwargs; done.
Qed.

(** X19.  The button to the last page raises [TypeError] and leaves the view
    as it is when the source cannot tell its number of pages.  Otherwise it
    asks for page [max_pages - 1].  On a source that has the attribute
    [select_options]: when the source delivers the page, it becomes the
    current page; when the fetch raises, the error is raised and the current
    page stays what it was.  On a source without the attribute
    [AttributeError] is raised and the current page stays what it was. *)
Theorem last_item_button v :
  (get_max_pages (_source v) = None →
   LastItemButton_callback v = (Raise TypeError, v)) ∧
  (∀ m options page,
     get_max_pages (_source v) = Some m →
     select_options (_source v) = Some options →
     get_page (_source v) (m - 1) = Ok page →
     current_page (LastItemButton_callback v).2 = m - 1) ∧
  (∀ m options e,
     get_max_pages (_source v) = Some m →
     select_options (_source v) = Some options →
     get_page (_source v) (m - 1) = Raise e →
     (LastItemButton_callback v).1 = Raise e ∧
     current_page (LastItemButton_callback v).2 = current_page v) ∧
  (∀ m,
     get_max_pages (_source v) = Some m →
     select_options (_source v) = None →
     (LastItemButton_callback v).1 = Raise AttributeError ∧
     current_page (LastItemButton_callback v).2 = current_page v).
Proof.
  unfold LastItemButton_callback, mbind, Eff_bind, view. cbn.
  split; [by intros ->|]. split; [|split].
  - intros m options page -> Hopt Hpage.
    by destruct (show_page_fetched v (m - 1) options page Hopt Hpage).
  - intros m options e -> Hopt Hpage.
    by apply (show_page_failed v (m - 1) options e).
  - intros m -> Hopt.
    by destruct (show_page_no_options v (m - 1) Hopt) as (? & ? & _).
Qed.

(** X20.  [change_source], whatever its outcome, leaves the view on the new
    source with current page 0 and [page_start] as it was; it disables the
    navigation when the new source is not paginating and never enables it;
    and an error of the new source on page [page_start] is raised. *)
Theorem change_source_switches v new_source :
  let v' := (change_source new_source v).2 in
  _source v' = new_source ∧
  current_page v' = 0 ∧
  page_start v' = page_start v ∧
  first_item_disabled v' = first_item_disabled v || negb (is_paginating new_source) ∧
  back_button_disabled v' = back_button_disabled v || negb (is_paginating new_source) ∧
  forward_button_disabled v'
  = forward_button_disabled v || negb (is_paginating new_source) ∧
  last_item_disabled v' = last_item_disabled v || negb (is_paginating new_source) ∧
  (∀ e, get_page new_source (page_start v) = Raise e →
        (change_source new_source v).1 = Raise e).
Proof.
  unfold change_source, mbind, Eff_bind, view, lift. cbn.
  destruct (is_paginating new_source) eqn:Hpag; cbn;
    (destruct (get_page new_source (page_start v)) as [page|e] eqn:Hpage; cbn;
     [case_kwargs; rewrite ?orb_false_r, ?orb_true_r; repeat split; try done;
        intros e [=]
     |rewrite ?orb_false_r, ?orb_true_r; repeat split; try done;
        by intros e' [= ->]]).
Qed.

(** X26.  [BaseView.get_page] sends nothing and leaves the select menu alone;
    the page asked for becomes the current page when the source delivers it,
    and when the fetch raises, the error is raised and the current page stays
    what it was. *)
Theorem get_page_sends_nothing v page_number :
  edits (BaseView_get_page page_number v).2 = edits v ∧
  select_menu (BaseView_get_page page_number v).2 = select_menu v ∧
  (∀ page, get_page (_source v) page_number = Ok page →
     current_page (BaseView_get_page page_number v).2 = page_number) ∧
  (∀ e, get_page (_source v) page_number = Raise e →
     (BaseView_get_page page_number v).1 = Raise e ∧
     current_page (BaseView_get_page page_number v).2 = current_page v).
Proof.
  unfold BaseView_get_page, mbind, Eff_bind, view, lift. cbn.
  destruct (is_paginating (_source v)); cbn;
    (destruct (get_page (_source v) page_number) as [page|e]; cbn;
     [case_kwargs; (split; [done|]); (split; [done|]); (split; [done|]);
        intros ? [=]
     |(split; [done|]); (split; [done|]); (split; [intros ? [=]|]);
        by intros ? [= ->]]).
Qed.

(** X27.  On a source without the attribute [select_options], [show_page]
    raises [AttributeError] before it fetches the page: the current page
    stays what it was and nothing is sent.  So do the forward, the back and
    the first-page button. *)
Theorem buttons_need_select_options v page_number :
  select_options (_source v) = None →
  (show_page page_number v).1 = Raise AttributeError ∧
  current_page (show_page page_number v).2 = current_page v ∧
  edits (show_page page_number v).2 = edits v ∧
  (ForwardButton_callback v).1 = Raise AttributeError ∧
  current_page (ForwardButton_callback v).2 = current_page v ∧
  (BackButton_callback v).1 = Raise AttributeError ∧
  current_page (BackButton_callback v).2 = current_page v ∧
  (FirstItemButton_callback v).1 = Raise AttributeError ∧
  current_page (FirstItemButton_callback v).2 = current_page v.
Proof.
  intros Hopt.
  destruct (show_page_no_options v page_number Hopt) as (H1 & H2 & H3).
  destruct (show_page_no_options v 0 Hopt) as (H4 & H5 & _).
  destruct (show_checked_page_no_options v (current_page v + 1) Hopt) as (H6 & H7).
  destruct (show_checked_page_no_options v (current_page v - 1) Hopt) as (H8 & H9).
  unfold ForwardButton_callback, BackButton_callback, FirstItemButton_callback,
    mbind, Eff_bind, view. cbn.
  repeat split; assumption.
Qed.

End ViewMoreFacts.

(** ** The image generators *)

Section ImgenMoreFacts.
Import ImgenUtils.

Variable log_floor : Z → Z.
Variable format_0f : Z → Z → string.

(** X21.  For a positive number, [_humanize_number] of its negation is the
    same string when the magnitude is out of the units (the sign is lost),
    and below that the string of the number with "-" in front. *)
Theorem humanize_number_negated number :
  0 < number →
  (6 ≤ log_floor number →
   _humanize_number log_floor format_0f (- number)
   = _humanize_number log_floor format_0f number) ∧
  (log_floor number < 6 → ∀ s,
   _humanize_number log_floor format_0f number = Ok (VStr s) →
   _humanize_number log_floor format_0f (- number) = Ok (VStr ("-" +:+ s))).
Proof.
  intros Hpos. unfold _humanize_number.
  destruct (decide (- number = 0)); [lia|]. destruct (decide (number = 0)); [lia|].
  destruct (decide (- number < 0)); [|lia]. destruct (decide (number < 0)); [lia|].
  replace (- number * -1) with number by lia.
  split.
  - intros Hbig. destruct (decide _) as [|Hno]; [done|]. cbn in Hno. lia.
  - intros Hsmall s. destruct (decide _) as [Hge|_]; [cbn in Hge; lia|].
    destruct (list_getitem units (log_floor number)) as [u|e]; cbn; [|done].
    by intros [= <-].
Qed.

End ImgenMoreFacts.

Section SortFacts.
Import ImgenUtils.

Lemma insert_desc_perm x l : insert_desc x l ≡ₚ x :: l.
Proof.
  induction l as [|y l IH]; cbn; [done|].
  destruct (decide _); [|done]. rewrite IH. apply Permutation_swap.
Qed.

Lemma sorted_desc_perm l : sorted_desc l ≡ₚ l.
Proof.
  induction l as [|x l IH]; cbn; [done|]. by rewrite insert_desc_perm, IH.
Qed.

Lemma before_trans a b c : before a b → before b c → before a c.
Proof. unfold before. lia. Qed.

Lemma insert_desc_sorted x l :
  Forall (λ y, x.1 < y.1) l →
  StronglySorted before l → StronglySorted before (insert_desc x l).
Proof.
  intros Hidx Hsorted. induction Hsorted as [|y l Hl IH Hy]; cbn.
  { repeat constructor. }
  apply Forall_cons in Hidx as [Hxy Hidx].
  destruct (decide (x.2 < y.2)) as [Hlt|Hge].
  - constructor; [by apply IH|].
    rewrite insert_desc_perm. constructor; [left; done|done].
  - constructor; [by constructor|].
    assert (before x y) as Hbefore by (unfold before; lia).
    constructor; [done|].
    eapply Forall_impl; [exact Hy|]. intros z Hz. by eapply before_trans.
Qed.

Lemma freq_index_from_lookup counts : ∀ index k count,
  counts !! k = Some count →
  freq_index_from index counts !! k = Some (index + Z.of_nat k, count).
Proof.
  induction counts as [|c counts IH]; intros index [|k] count Hk; try done.
  - injection Hk as ->. cbn. by rewrite Z.add_0_r.
  - change (freq_index_from (index + 1) counts !! k
            = Some (index + Z.of_nat (S k), count)).
    rewrite (IH (index + 1) k count Hk). do 2 f_equal. lia.
Qed.

Lemma freq_index_from_indices counts : ∀ index,
  Forall (λ y, index ≤ y.1 < index + Z.of_nat (length counts)) (freq_index_from index counts).
Proof.
  induction counts as [|c counts IH]; intros index; cbn -[Z.of_nat]; [done|].
  constructor; [cbn; lia|].
  eapply Forall_impl; [apply IH|]. cbn. intros y Hy. lia.
Qed.

Lemma freq_index_from_length counts index :
  length (freq_index_from index counts) = length counts.
Proof. revert index. induction counts; intros; cbn; auto. Qed.

Lemma sorted_freq_index_sorted counts : ∀ index,
  StronglySorted before (sorted_desc (freq_index_from index counts)).
Proof.
  induction counts as [|c counts IH]; intros index; cbn; [constructor|].
  apply insert_desc_sorted; [|apply IH].
  rewrite sorted_desc_perm.
  eapply Forall_impl; [apply freq_index_from_indices|]. cbn. intros y Hy. lia.
Qed.

Lemma sorted_list_elem counts i count :
  (i, count) ∈ sorted_desc (freq_index_from 0 counts) ↔
  0 ≤ i ∧ counts !! Z.to_nat i = Some count.
Proof.
  rewrite sorted_desc_perm. split.
  - intros [k Hk]%list_elem_of_lookup.
    pose proof (lookup_lt_Some _ _ _ Hk) as Hlt. rewrite freq_index_from_length in Hlt.
    destruct (lookup_lt_is_Some_2 counts k Hlt) as [c Hc].
    rewrite (freq_index_from_lookup counts 0 k c Hc) in Hk.
    injection Hk as <- <-. split; [lia|]. by rewrite Z.add_0_l, Nat2Z.id.
  - intros [Hi Hc]. apply list_elem_of_lookup. exists (Z.to_nat i).
    rewrite (freq_index_from_lookup counts 0 _ count Hc). do 2 f_equal. lia.
Qed.

(** X22.  The list [_auto_color] ranks the clusters by holds every pair of an
    index and its count once and nothing else, a larger count before a
    smaller one, and of two equal counts the one with the smaller index
    first. *)
Theorem sorted_list_ordered counts :
  sorted_desc (freq_index_from 0 counts) ≡ₚ freq_index_from 0 counts ∧
  StronglySorted before (sorted_desc (freq_index_from 0 counts)) ∧
  ∀ i count, (i, count) ∈ sorted_desc (freq_index_from 0 counts) ↔
             0 ≤ i ∧ counts !! Z.to_nat i = Some count.
Proof.
  split; [apply sorted_desc_perm|]. split; [apply sorted_freq_index_sorted|].
  apply sorted_list_elem.
Qed.

Lemma sorted_list_length counts :
  length (sorted_desc (freq_index_from 0 counts)) = length counts.
Proof. by rewrite sorted_desc_perm, freq_index_from_length. Qed.

Lemma sorted_lookup_order {A} (R : relation A) l i j x y :
  StronglySorted R l → l !! i = Some x → l !! j = Some y → (i < j)%nat → R x y.
Proof.
  intros Hsorted. revert i j.
  induction Hsorted as [|a l Hl IH Ha]; intros i j Hi Hj Hlt; [done|].
  destruct j as [|j]; [lia|]. cbn in Hj.
  destruct i as [|i]; cbn in Hi.
  - injection Hi as <-. rewrite Forall_forall in Ha. apply Ha.
    apply list_elem_of_lookup. eauto.
  - apply (IH i j); [done|done|lia].
Qed.

Lemma colors_of_error codes sorted_list ranks e :
  colors_of codes sorted_list ranks = Raise e → e = IndexError.
Proof.
  assert (∀ A (l : list A) i e', list_getitem l i = Raise e' → e' = IndexError) as Hget.
  { intros A l i e'. unfold list_getitem.
    destruct (decide _); [|by intros [= <-]].
    destruct (l !! _); [done|by intros [= <-]]. }
  induction ranks as [|rank rest IH]; cbn; [done|].
  unfold color_of, mbind, result_bind.
  destruct (list_getitem sorted_list _) as [entry|e1] eqn:H1.
  - destruct (list_getitem codes entry.1) as [peak|e2] eqn:H2.
    + destruct (colors_of codes sorted_list rest) as [colors|e3]; [done|].
      intros [= <-]. by apply IH.
    + intros [= <-]. by eapply Hget.
  - intros [= <-]. by eapply Hget.
Qed.

(** X23.  When one of the ranks asked for is the number of clusters or more,
    [_auto_color] raises [IndexError] and returns no colour at all: [min]
    brings the rank down to [len(codes)], one past the last entry. *)
Theorem auto_color_rank_out_of_range codes counts ranks rank :
  length counts = length codes →
  rank ∈ ranks →
  Z.of_nat (length codes) ≤ rank →
  auto_color_colors codes counts ranks = Raise IndexError.
Proof.
  intros Hlen Hin Hrank. unfold auto_color_colors.
  set (sorted_list := sorted_desc (freq_index_from 0 counts)).
  assert (length sorted_list = length codes) as Hsorted.
  { unfold sorted_list. by rewrite sorted_list_length. }
  destruct (colors_of codes sorted_list ranks) as [colors|e] eqn:Hcolors.
  - exfalso. clearbody sorted_list. revert colors Hcolors.
    induction Hin as [rank rest|rank r rest Hin IH]; intros colors; cbn.
    + unfold color_of. rewrite Z.min_r by lia.
      rewrite list_getitem_past by lia. done.
    + unfold mbind, result_bind.
      destruct (color_of codes sorted_list r); [|done].
      destruct (colors_of codes sorted_list rest) as [cs|]; [|done].
      intros _. by apply (IH Hrank cs).
  - f_equal. by eapply colors_of_error.
Qed.

Lemma format_02x_byte c : 0 ≤ c ≤ 255 → String.length (format_02x c) = 2%nat.
Proof.
  intros Hc.
  assert (forallb (λ c, Nat.eqb (String.length (format_02x c)) 2) (seqZ 0 256) = true)
    as Hall by (vm_compute; reflexivity).
  rewrite forallb_forall in Hall.
  apply Nat.eqb_eq, Hall, list_elem_of_In, elem_of_seqZ. lia.
Qed.

Lemma concat_format_length peak :
  Forall (λ c, 0 ≤ c ≤ 255) peak →
  String.length (String.concat "" (format_02x <$> peak)) = (2 * length peak)%nat.
Proof.
  assert (∀ a b, String.length (a +:+ b) = (String.length a + String.length b)%nat)
    as Happ.
  { intros a b. induction a as [|ch a IHa]; cbn; [done|]. by rewrite <- IHa. }
  induction 1 as [|c peak Hc Hpeak IH]; [done|].
  cbn [fmap list_fmap length].
  destruct peak as [|c' peak'].
  - cbn. rewrite format_02x_byte by done. done.
  - change (String.concat "" (format_02x c :: (format_02x <$> (c' :: peak'))))
      with (format_02x c +:+ "" +:+ String.concat "" (format_02x <$> (c' :: peak'))).
    rewrite !Happ, IH, format_02x_byte by done. cbn. lia.
Qed.

(** X24.  For a rank from 0 up to the number of clusters, [_auto_color] gives
    the components of one centre in hexadecimal: the centre of a cluster
    whose count is at [rank] in the sorted list, hence no smaller than the
    count of any entry after it; two characters per component when the
    components are between 0 and 255. *)
Theorem auto_color_rank codes counts rank :
  length counts = length codes →
  0 ≤ rank < Z.of_nat (length codes) →
  ∃ i count peak,
    sorted_desc (freq_index_from 0 counts) !! Z.to_nat rank = Some (i, count) ∧
    counts !! Z.to_nat i = Some count ∧
    codes !! Z.to_nat i = Some peak ∧
    auto_color_colors codes counts [rank]
    = Ok [String.concat "" (format_02x <$> peak)] ∧
    (Forall (λ c, 0 ≤ c ≤ 255) peak →
     String.length (String.concat "" (format_02x <$> peak)) = (2 * length peak)%nat) ∧
    (∀ later entry, (Z.to_nat rank < later)%nat →
       sorted_desc (freq_index_from 0 counts) !! later = Some entry →
       entry.2 ≤ count).
Proof.
  intros Hlen Hrank.
  pose proof (sorted_freq_index_sorted counts 0) as Hsorted.
  pose proof (sorted_list_elem counts) as Hmem.
  set (sorted_list := sorted_desc (freq_index_from 0 counts)) in *.
  assert (length sorted_list = length codes) as Hlength.
  { unfold sorted_list. by rewrite sorted_list_length. }
  destruct (lookup_lt_is_Some_2 sorted_list (Z.to_nat rank)) as [[i count] Hentry]; [lia|].
  destruct (proj1 (Hmem i count)) as [Hi Hcount].
  { apply list_elem_of_lookup. eauto. }
  pose proof (lookup_lt_Some _ _ _ Hcount) as Hilt.
  destruct (lookup_lt_is_Some_2 codes (Z.to_nat i)) as [peak Hpeak]; [lia|].
  exists i, count, peak. repeat split; try done.
  - unfold auto_color_colors. fold sorted_list. cbn.
    unfold color_of. rewrite Z.min_l by lia.
    rewrite (list_getitem_at _ _ _ (proj1 Hrank) Hentry). cbn.
    by rewrite (list_getitem_at _ _ _ Hi Hpeak).
  - apply concat_format_length.
  - intros later entry Hlater Hl.
    pose proof (sorted_lookup_order before sorted_list _ _ _ _ Hsorted Hentry Hl Hlater)
      as Hord.
    unfold before in Hord. cbn in Hord. lia.
Qed.

(** X25.  [char_in_font] answers [True] exactly when one of the Unicode tables
    of the font maps the code point of the character. *)
Theorem char_in_font_spec unicode_char tables :
  char_in_font unicode_char tables = true ↔
  ∃ table, table ∈ tables ∧ isUnicode table = true
           ∧ is_Some (cmap table !! unicode_char).
Proof.
  induction tables as [|table rest IH]; cbn.
  { split; [done|]. intros (t & Ht & _). by apply elem_of_nil in Ht. }
  destruct (isUnicode table) eqn:Huni.
  - destruct (decide (is_Some (cmap table !! unicode_char))) as [Hin|Hout].
    + split; [|done]. intros _. exists table. split; [left|done].
    + rewrite IH. split.
      * intros (t & Ht & Hu & Hc). exists t. split; [by right|done].
      * intros (t & [->|Ht]%elem_of_cons & Hu & Hc); [done|eauto].
  - rewrite IH. split.
    + intros (t & Ht & Hu & Hc). exists t. split; [by right|done].
    + intros (t & [->|Ht]%elem_of_cons & Hu & Hc); [congruence|eauto].
Qed.

End SortFacts.

(** ** Worked examples *)

Section LevelerRuns.
Import Leveler.

Abbreviation example_setlevel :=
  (setlevel example_required_exp example_level_exp ensure_user_exists 1000 5).


Lemma setlevel_other_users_witness :
  users (example_setlevel alice 4 broken_world).2 !! "99"%string
  = ensure_user_exists alice 1000 (users broken_world) !! "99"%string.
Proof.
  apply (setlevel_other_users example_required_exp example_level_exp ensure_user_exists
           1000 5 alice 4 broken_world "99").
  refine (bool_decide_unpack _ _). vm_compute. reflexivity.
Defined.

Lemma setlevel_other_guilds_witness :
  (∀ guild, guild ≠ 1000 →
     standing_of (users (example_setlevel alice 4 (example_world 500 2 30)).2) "42" guild
     = standing_of (ensure_user_exists alice 1000 (users (example_world 500 2 30)))
         "42" guild) ∧
  (∀ field, field ≠ "total_exp"%string → field ≠ "servers"%string →
     record_field (users (example_setlevel alice 4 (example_world 500 2 30)).2) "42" field
     = record_field (ensure_user_exists alice 1000 (users (example_world 500 2 30)))
         "42" field).
Proof.
  apply (setlevel_other_guilds example_required_exp example_level_exp ensure_user_exists
           1000 5 alice 4 (example_world 500 2 30) 500 2 30);
    solve [reflexivity | lia].
Defined.

Lemma setlevel_levelup_record_witness :
  ∃ doc,
    users (example_setlevel alice 4 (example_world 500 2 30)).2 !! "42"%string = Some doc ∧
    last (log (example_setlevel alice 4 (example_world 500 2 30)).2)
    = Some (EvLevelup alice (VDict doc) 1000 5).
Proof.
  apply (setlevel_levelup_record example_required_exp example_level_exp ensure_user_exists
           1000 5 alice 4 (example_world 500 2 30) 500 2 30);
    solve [reflexivity | lia].
Defined.

Lemma resetranks_resets_members_witness :
  (resetranks 1000 [robot; alice; carol] (example_world 130 1 30)).1 = Ok tt ∧
  ∀ m, m ∈ [robot; alice; carol] → bot m = false →
    is_Some (users (example_world 130 1 30) !! str (id m)) →
    standing_of (users (resetranks 1000 [robot; alice; carol] (example_world 130 1 30)).2)
      (str (id m)) 1000 = Some (0, 0) ∧
    total_exp_of (users (resetranks 1000 [robot; alice; carol] (example_world 130 1 30)).2)
      (str (id m))
    = total_exp_of (users (example_world 130 1 30)) (str (id m)) ∧
    ∀ g, g ≠ 1000 →
      standing_of (users (resetranks 1000 [robot; alice; carol] (example_world 130 1 30)).2)
        (str (id m)) g
      = standing_of (users (example_world 130 1 30)) (str (id m)) g.
Proof.
  apply (resetranks_resets_members 1000 [robot; alice; carol] (example_world 130 1 30)).
  - refine (bool_decide_unpack _ _). vm_compute. reflexivity.
  - vm_compute. reflexivity.
Defined.


Lemma resetranks_other_users_witness :
  users (resetranks 1000 [robot; alice] broken_world).2 !! "99"%string
  = users broken_world !! "99"%string ∧
  writes_to "99" (log (resetranks 1000 [robot; alice] broken_world).2)
  = writes_to "99" (log broken_world).
Proof.
  apply (resetranks_other_users 1000 [robot; alice] broken_world "99").
  refine (bool_decide_unpack _ _). vm_compute. reflexivity.
Defined.

Lemma resetranks_pauses_witness :
  Z.of_nat (pauses (log (resetranks 1000 [robot; alice; carol] (example_world 130 1 30)).2))
  = Z.of_nat (pauses (log (example_world 130 1 30)))
    + (Z.of_nat
         (writes (log (resetranks 1000 [robot; alice; carol] (example_world 130 1 30)).2))
       - Z.of_nat (writes (log (example_world 130 1 30)))) `div` 100.
Proof.
  apply (resetranks_pauses 1000 [robot; alice; carol] (example_world 130 1 30)).
  vm_compute. reflexivity.
Defined.

Lemma resetranks_stops_at_bad_record_witness :
  (resetranks 1000 ([robot; alice] ++ carol :: []) broken_world).1
  = Raise (KeyError "total_exp") ∧
  (∀ m', m' ∈ [robot; alice] → bot m' = false →
     is_Some (users broken_world !! str (id m')) →
     standing_of (users (resetranks 1000 ([robot; alice] ++ carol :: []) broken_world).2)
       (str (id m')) 1000 = Some (0, 0)) ∧
  (∀ m', m' ∈ carol :: [] →
     users (resetranks 1000 ([robot; alice] ++ carol :: []) broken_world).2 !! str (id m')
     = users broken_world !! str (id m')).
Proof.
  apply (resetranks_stops_at_bad_record 1000 [robot; alice] carol [] broken_world
           {[ "user_id"%string := VStr "99" ]}).
  - refine (bool_decide_unpack _ _). vm_compute. reflexivity.
  - vm_compute. reflexivity.
  - reflexivity.
  - vm_compute. reflexivity.
  - vm_compute. reflexivity.
Defined.

End LevelerRuns.

Section ViewRuns.
Import Menus.

Lemma select_menu_has_current_page_witness :
  _get_select_menu (BaseView_init (list_source (replicate 30 "p")) 20)
    !! Z.to_nat (current_page (BaseView_init (list_source (replicate 30 "p")) 20)
                 - select_menu_start (BaseView_init (list_source (replicate 30 "p")) 20))
  = Some "p"%string.
Proof.
  apply (select_menu_has_current_page
           (BaseView_init (list_source (replicate 30 "p")) 20) "p").
  - cbn. lia.
  - vm_compute. reflexivity.
Defined.

Lemma show_checked_page_unchecked_witness :
  (∀ options page,
     select_options (_source (BaseView_init endless_source 0)) = Some options →
     get_page (_source (BaseView_init endless_source 0)) 7 = Ok page →
     current_page (show_checked_page 7 (BaseView_init endless_source 0)).2 = 7) ∧
  (select_options (_source (BaseView_init endless_source 0)) = None →
     (show_checked_page 7 (BaseView_init endless_source 0)).1 = Raise AttributeError ∧
     current_page (show_checked_page 7 (BaseView_init endless_source 0)).2
     = current_page (BaseView_init endless_source 0)).
Proof.
  apply (show_checked_page_unchecked (BaseView_init endless_source 0) 7). reflexivity.
Defined.

Lemma buttons_need_select_options_witness :
  (show_page 1 (BaseView_init bare_source 0)).1 = Raise AttributeError ∧
  current_page (show_page 1 (BaseView_init bare_source 0)).2
  = current_page (BaseView_init bare_source 0) ∧
  edits (show_page 1 (BaseView_init bare_source 0)).2 = edits (BaseView_init bare_source 0) ∧
  (ForwardButton_callback (BaseView_init bare_source 0)).1 = Raise AttributeError ∧
  current_page (ForwardButton_callback (BaseView_init bare_source 0)).2
  = current_page (BaseView_init bare_source 0) ∧
  (BackButton_callback (BaseView_init bare_source 0)).1 = Raise AttributeError ∧
  current_page (BackButton_callback (BaseView_init bare_source 0)).2
  = current_page (BaseView_init bare_source 0) ∧
  (FirstItemButton_callback (BaseView_init bare_source 0)).1 = Raise AttributeError ∧
  current_page (FirstItemButton_callback (BaseView_init bare_source 0)).2
  = current_page (BaseView_init bare_source 0).
Proof.
  apply (buttons_need_select_options (BaseView_init bare_source 0) 1). reflexivity.
Defined.

Lemma buttons_step_witness :
  current_page (ForwardButton_callback (BaseView_init (list_source ["a"; "b"; "c"]) 2)).2
  = (2 + 1) `mod` 3 ∧
  current_page (BackButton_callback (BaseView_init (list_source ["a"; "b"; "c"]) 2)).2
  = (2 - 1) `mod` 3.
Proof.
  apply (buttons_step (BaseView_init (list_source ["a"; "b"; "c"]) 2) 3).
  - apply (list_source_serves ["a"; "b"; "c"]%string).
  - cbn. lia.
Defined.

Lemma forward_then_back_witness :
  current_page (BackButton_callback
                  (ForwardButton_callback
                     (BaseView_init (list_source ["a"; "b"; "c"]) 2)).2).2 = 2 ∧
  current_page (ForwardButton_callback
                  (BackButton_callback
                     (BaseView_init (list_source ["a"; "b"; "c"]) 2)).2).2 = 2.
Proof.
  apply (forward_then_back (BaseView_init (list_source ["a"; "b"; "c"]) 2) 3).
  - apply (list_source_serves ["a"; "b"; "c"]%string).
  - cbn. lia.
Defined.

Lemma forward_presses_page_witness :
  current_page (forward_presses 3 (BaseView_init (list_source ["a"; "b"; "c"]) 2))
  = (2 + 3) `mod` 3 ∧
  (3%nat = Z.to_nat 3 →
   current_page (forward_presses 3 (BaseView_init (list_source ["a"; "b"; "c"]) 2)) = 2).
Proof.
  apply (forward_presses_page (BaseView_init (list_source ["a"; "b"; "c"]) 2) 3 3).
  - apply (list_source_serves ["a"; "b"; "c"]%string).
  - cbn. lia.
Defined.

End ViewRuns.

Section ImgenRuns.
Import ImgenUtils.

Lemma humanize_number_negated_witness :
  (6 ≤ ilog1000 1500 →
   _humanize_number ilog1000 exact_0f (- 1500) = _humanize_number ilog1000 exact_0f 1500) ∧
  (ilog1000 1500 < 6 → ∀ s,
   _humanize_number ilog1000 exact_0f 1500 = Ok (VStr s) →
   _humanize_number ilog1000 exact_0f (- 1500) = Ok (VStr ("-" +:+ s))).
Proof.
  apply (humanize_number_negated ilog1000 exact_0f 1500). lia.
Defined.

Lemma auto_color_rank_out_of_range_witness :
  auto_color_colors example_codes example_counts [0; 3] = Raise IndexError.
Proof.
  apply (auto_color_rank_out_of_range example_codes example_counts [0; 3] 3).
  - reflexivity.
  - refine (bool_decide_unpack _ _). vm_compute. reflexivity.
  - cbn. lia.
Defined.

Lemma auto_color_rank_witness :
  ∃ i count peak,
    sorted_desc (freq_index_from 0 example_counts) !! Z.to_nat 0 = Some (i, count) ∧
    example_counts !! Z.to_nat i = Some count ∧
    example_codes !! Z.to_nat i = Some peak ∧
    auto_color_colors example_codes example_counts [0]
    = Ok [String.concat "" (format_02x <$> peak)] ∧
    (Forall (λ c, 0 ≤ c ≤ 255) peak →
     String.length (String.concat "" (format_02x <$> peak)) = (2 * length peak)%nat) ∧
    (∀ later entry, (Z.to_nat 0 < later)%nat →
       sorted_desc (freq_index_from 0 example_counts) !! later = Some entry →
       entry.2 ≤ count).
Proof.
  apply (auto_color_rank example_codes example_counts 0).
  - reflexivity.
  - cbn. lia.
Defined.

(** The most abundant of the example clusters is the second, green. *)
Example auto_color_examples :
  auto_color_colors example_codes example_counts [0; 1; 2; -1]
  = Ok ["00ff00"; "010203"; "ff0000"; "ff0000"]%string.
Proof. vm_compute. reflexivity. Qed.

End ImgenRuns.
